(** * ID-photo generator: the Gemini transformation client

    A shallow embedding of [services/geminiService.ts]: the module
    initialisation (credential check, SDK client construction) and the one
    exported operation [transformToIdPhoto], which builds a multimodal
    request, awaits the SDK's [generateContent], scans the parts of the first
    candidate for inline image data and normalises every failure in its
    [catch] block.

    JavaScript effects are modelled explicitly: a computation takes the world
    (console output, requests handed to the SDK, state of the remote service)
    and ends either normally or by throwing a value.  The SDK itself
    ([@google/genai]) is an external collaborator and is a parameter of the
    development.

    The second part embeds the component that calls the service ([App]):
    its state variables, its handlers, what it renders, and the component
    over time as a machine driven by user events and callbacks. *)

From Stdlib Require Import String Ascii List Bool Arith Lia.
Import ListNotations.
Open Scope string_scope.

(** ** JavaScript values that can be thrown, and completions *)

Module Js.

(** What a [catch] clause may receive.  [ErrorInstance] stands for an
    object created by [new Error(..)] or by a subclass constructor
    ([TypeError], the SDK's error classes); everything else is a value for
    which [instanceof Error] is false. *)
Inductive Value : Type :=
| Undefined
| Null
| Str (s : string)
| PlainObject (message : option string)
| ErrorInstance (name : string) (message : string).

Definition instanceof_Error (v : Value) : bool :=
  match v with
  | ErrorInstance _ _ => true
  | _ => false
  end.

Definition new_Error (message : string) : Value := ErrorInstance "Error" message.
Definition new_TypeError (message : string) : Value := ErrorInstance "TypeError" message.

(** [error.message] on a value already known to be an [Error]. *)
Definition message_of (v : Value) : string :=
  match v with
  | ErrorInstance _ m => m
  | _ => ""
  end.

(** Truthiness of an optional string: [undefined] and [""] are falsy. *)
Definition truthy_string (o : option string) : bool :=
  match o with
  | Some s => negb (s =? "")
  | None => false
  end.

(** How a block of code ends; for an [async] function [Normal] settles the
    returned promise as resolved and [Throw] as rejected. *)
Inductive Completion (A : Type) : Type :=
| Normal (a : A)
| Throw (v : Value).
Arguments Normal {A} a.
Arguments Throw {A} v.

Inductive ConsoleEntry : Type :=
| Warn (text : string)
| Error (text : string) (v : Value).

End Js.

(** ** The part of the SDK's data model the service touches *)

Module GenAI.

Inductive Modality : Type :=
| MODALITY_UNSPECIFIED
| TEXT
| IMAGE
| AUDIO.

(** Every field of the SDK's interfaces is optional. *)
Record Blob : Type := mkBlob {
  data : option string;
  mimeType : option string
}.

Record Part : Type := mkPart {
  inlineData : option Blob;
  text : option string
}.

Record Content : Type := mkContent {
  parts : option (list Part)
}.

Record Candidate : Type := mkCandidate {
  content : option Content
}.

Record GenerateContentResponse : Type := mkResponse {
  candidates : option (list Candidate)
}.

Record GenerateContentConfig : Type := mkConfig {
  responseModalities : list Modality
}.

Record GenerateContentParameters : Type := mkParameters {
  model : string;
  contents : Content;
  config : GenerateContentConfig
}.

(** The host: the SDK, the remote service behind it, and the wording the
    JavaScript engine gives its [TypeError]s.  [GoogleGenAI_new] is the
    constructor [new GoogleGenAI({ apiKey })]; [generateContent] is
    [ai.models.generateContent], which consumes the state of the service
    and either yields a response or fails with some thrown value. *)
Record Host : Type := mkHost {
  GoogleGenAI : Type;
  Service : Type;
  GoogleGenAI_new : option string -> Js.Completion GoogleGenAI;
  generateContent :
    GoogleGenAI -> GenerateContentParameters -> Service ->
    Js.Completion GenerateContentResponse * Service;
  cannot_read_property_of_undefined : string -> string;
  is_not_iterable : string
}.

End GenAI.

(** ** services/geminiService.ts *)

Module geminiService.
Import Js GenAI.

Section WithHost.

Variable H : Host.

Record World : Type := mkWorld {
  console : list ConsoleEntry;
  sent : list GenerateContentParameters;
  service : Service H
}.

(** Computations: world in, completion and world out. *)
Definition M (A : Type) : Type := World -> Completion A * World.

Definition ret {A : Type} (a : A) : M A := fun w => (Normal a, w).

Definition throw {A : Type} (v : Value) : M A := fun w => (Throw v, w).

Definition bind {A B : Type} (m : M A) (k : A -> M B) : M B :=
  fun w =>
    match m w with
    | (Normal a, w') => k a w'
    | (Throw v, w') => (Throw v, w')
    end.

Definition try_catch {A : Type} (body : M A) (handler : Value -> M A) : M A :=
  fun w =>
    match body w with
    | (Normal a, w') => (Normal a, w')
    | (Throw v, w') => handler v w'
    end.

Definition console_warn (text : string) : M unit :=
  fun w => (Normal tt, mkWorld (console w ++ [Warn text]) (sent w) (service w)).

Definition console_error (text : string) (v : Value) : M unit :=
  fun w => (Normal tt, mkWorld (console w ++ [Error text v]) (sent w) (service w)).

(** [new GoogleGenAI({ apiKey })]. *)
Definition new_GoogleGenAI (apiKey : option string) : M (GoogleGenAI H) :=
  fun w => (GoogleGenAI_new H apiKey, w).

(** [await ai.models.generateContent(params)]: the request leaves the
    module, the service answers or the call throws. *)
Definition await_generateContent (ai : GoogleGenAI H)
    (params : GenerateContentParameters) : M GenerateContentResponse :=
  fun w =>
    let (outcome, s) := generateContent H ai params (service w) in
    (outcome, mkWorld (console w) (sent w ++ [params]) s).

(** [o.prop] and [o[i]]: reading through [undefined] throws a [TypeError]. *)
Definition get_property {A B : Type} (o : option A) (prop : string) (read : A -> B) : M B :=
  match o with
  | Some a => ret (read a)
  | None => throw (new_TypeError (cannot_read_property_of_undefined H prop))
  end.

(** The iterable a [for ... of] loop asks of its operand. *)
Definition get_iterator {A : Type} (o : option (list A)) : M (list A) :=
  match o with
  | Some l => ret l
  | None => throw (new_TypeError (is_not_iterable H))
  end.

End WithHost.

Arguments ret {H A} a.
Arguments throw {H A} v.
Arguments bind {H A B} m k.
Arguments try_catch {H A} body handler.
Arguments console_warn {H} text.
Arguments console_error {H} text v.
Arguments new_GoogleGenAI {H} apiKey.
Arguments await_generateContent {H} ai params.
Arguments get_property {H A B} o prop read.
Arguments get_iterator {H A} o.
Arguments console {H} w.
Arguments sent {H} w.
Arguments service {H} w.
Arguments mkWorld {H} console sent service.

Declare Scope js_scope.
Delimit Scope js_scope with js.
Notation "x <- m ;; k" := (bind m (fun x => k))
  (at level 61, m at next level, right associativity) : js_scope.
Notation "m ;;; k" := (bind m (fun _ => k))
  (at level 61, right associativity) : js_scope.
Notation "'try' body 'catch' handler" := (try_catch body handler)
  (at level 62, body at level 61, handler at level 61) : js_scope.
Open Scope js_scope.

(** The instruction template literal, with [${aspectRatio}] spliced in. *)
Definition instruction (aspectRatio : string) : string :=
  "Transform the person in the image into a standard ID photo.

**CRITICAL INSTRUCTIONS:**
1.  **Final Image Dimensions:** The MOST IMPORTANT requirement is the final image's aspect ratio. It **MUST BE EXACTLY " ++ aspectRatio ++ " (width to height)**. The entire output image file must have this specific shape. This instruction is more important than all others. Do not fail on this.
2.  **Attire:** Dress the person in a simple, plain white collared shirt.
3.  **Posture:** The person must face forward, looking directly at the camera with their shoulders straight and squared.
4.  **Background:** Replace the entire background with a solid, plain, professional light blue color.
5.  **Composition:** Crop the image to a head-and-shoulders portrait.
6.  **Identity Preservation:** Do not change the person's face, hair, or identity.

Reminder: The final image's aspect ratio **MUST be " ++ aspectRatio ++ "**. This is a strict requirement.".

(** The argument of [ai.models.generateContent] (lines 20-48). *)
Definition request (base64ImageData mimeType aspectRatio : string) : GenerateContentParameters :=
  {| model := "gemini-2.5-flash-image-preview";
     contents :=
       {| parts := Some
            [ {| inlineData := Some {| data := Some base64ImageData;
                                       mimeType := Some mimeType |};
                 text := None |};
              {| inlineData := None;
                 text := Some (instruction aspectRatio) |} ] |};
     config := {| responseModalities := [IMAGE; TEXT] |} |}.

(** The test of the loop body, [part.inlineData && part.inlineData.data]:
    an absent [inlineData] is falsy, a present one is an object and so truthy,
    and the test is then the truthiness of its [data]. *)
Definition has_image (part : Part) : bool :=
  match inlineData part with
  | Some blob => truthy_string (data blob)
  | None => false
  end.

(** [part.inlineData.data], read once the test above has passed. *)
Definition image_of (part : Part) : string :=
  match inlineData part with
  | Some {| data := Some d |} => d
  | _ => ""
  end.

(** The [for (const part of ...)] loop: [Some d] when the body executes
    [return d], [None] when the loop runs to its end. *)
Fixpoint for_of_parts (ps : list Part) : option string :=
  match ps with
  | [] => None
  | part :: rest =>
      if has_image part then Some (image_of part) else for_of_parts rest
  end.

Definition no_image_message : string :=
  "The AI did not return an image. Please try a different photo.".

Definition failed_prefix : string := "Failed to generate ID photo: ".

Definition unknown_error_message : string :=
  "An unknown error occurred while generating the ID photo.".

(** The [try] block (lines 20-57). *)
Definition try_block {H : Host} (ai : GoogleGenAI H)
    (base64ImageData mimeType aspectRatio : string) : M H string :=
  response <- await_generateContent ai (request base64ImageData mimeType aspectRatio) ;;
  candidate <- get_property (candidates response) "0" (fun cs => nth_error cs 0) ;;
  content' <- get_property candidate "content" content ;;
  parts' <- get_property content' "parts" parts ;;
  iterable <- get_iterator parts' ;;
  match for_of_parts iterable with
  | Some image => ret image
  | None => throw (new_Error no_image_message)
  end.

(** The [catch (error)] block (lines 59-65). *)
Definition catch_block {H : Host} (error : Value) : M H string :=
  console_error "Error calling Gemini API:" error ;;;
  if instanceof_Error error
  then throw (new_Error (failed_prefix ++ message_of error))
  else throw (new_Error unknown_error_message).

Definition transformToIdPhoto {H : Host} (ai : GoogleGenAI H)
    (base64ImageData mimeType aspectRatio : string) : M H string :=
  try try_block ai base64ImageData mimeType aspectRatio
  catch catch_block.

(** Module initialisation (lines 3-9): the two module-level constants. *)
Definition missing_key_warning : string :=
  "API_KEY environment variable not set. Using fallback for development. Please set your API key for production.".

Record ModuleScope (H : Host) : Type := mkModuleScope {
  API_KEY : option string;
  ai : GoogleGenAI H
}.
Arguments API_KEY {H} _.
Arguments ai {H} _.
Arguments mkModuleScope {H} API_KEY ai.

Definition module_init {H : Host} (env_API_KEY : option string) : M H (ModuleScope H) :=
  let API_KEY := env_API_KEY in
  (if negb (truthy_string API_KEY) then console_warn missing_key_warning else ret tt) ;;;
  ai <- new_GoogleGenAI API_KEY ;;
  ret (mkModuleScope API_KEY ai).

(** ** A scripted host for running the service

    The SDK constructor keeps the key it is given, the service replays a
    list of prepared outcomes (and fails like a broken transport once the
    list is used up), and the [TypeError] wording is V8's. *)

Definition scripted : Host :=
  {| GoogleGenAI := option string;
     Service := list (Completion GenerateContentResponse);
     GoogleGenAI_new := fun apiKey => Normal apiKey;
     generateContent := fun _ _ script =>
       match script with
       | outcome :: rest => (outcome, rest)
       | [] => (Throw (new_TypeError "fetch failed"), [])
       end;
     cannot_read_property_of_undefined := fun prop =>
       "Cannot read properties of undefined (reading '" ++ prop ++ "')";
     is_not_iterable := "undefined is not iterable" |}.


Definition text_part (t : string) : Part :=
  {| inlineData := None; text := Some t |}.

Definition image_part (d mime : string) : Part :=
  {| inlineData := Some {| data := Some d; mimeType := Some mime |}; text := None |}.

Definition content_of (ps : list Part) : Content := {| parts := Some ps |}.

Definition candidate_of (ps : list Part) : Candidate :=
  {| content := Some (content_of ps) |}.

Definition response_of (ps : list Part) : GenerateContentResponse :=
  {| candidates := Some [candidate_of ps] |}.

(** Inline-data parts that carry no payload: [data] empty, [data] absent. *)
Definition empty_image_part (mime : string) : Part :=
  {| inlineData := Some {| data := Some ""; mimeType := Some mime |}; text := None |}.

Definition blank_image_part (mime : string) : Part :=
  {| inlineData := Some {| data := None; mimeType := Some mime |}; text := None |}.

Definition five_parts : list Part :=
  [text_part "ok"; text_part "here it is"; image_part "QUJD" "image/png";
   text_part "bye"; image_part "REVG" "image/png"].

Definition fresh (script : list (Completion GenerateContentResponse)) : World scripted :=
  mkWorld (H := scripted) [] [] script.

(** The world a call leaves behind when it ran in [w] but the service was
    in the state it has in [w']. *)
Definition with_service {H : Host} (w w' : World H) : World H :=
  mkWorld (console w) (sent w) (service w').

(** The world right after the awaited call for [req] came back with service
    state [s]. *)
Definition after_call {H : Host} (req : GenerateContentParameters)
    (w : World H) (s : Service H) : World H :=
  mkWorld (console w) (sent w ++ [req]) s.

(** The message the [catch] block gives the error it throws. *)
Definition normalised (cause : Value) : string :=
  if instanceof_Error cause
  then failed_prefix ++ message_of cause
  else unknown_error_message.

(** The world the [catch] block leaves: one more line on the console. *)
Definition after_catch {H : Host} (w : World H) (cause : Value) : World H :=
  mkWorld (console w ++ [Error "Error calling Gemini API:" cause]) (sent w) (service w).

(** Which of its two fields a part fills in. *)
Definition carries_inline (part : Part) : bool :=
  match inlineData part with Some _ => true | None => false end.

Definition carries_text (part : Part) : bool :=
  match text part with Some _ => true | None => false end.


(** ** Calls from untyped positions

    The caller reads the first argument out of an array ([split(',')[1]]),
    which the type checker takes for a string and which is [undefined] when
    the array is too short.  The function body does not look at the value:
    it becomes the [data] of the inline part as it is. *)
Definition request_from (base64ImageData : option string)
    (mimeType aspectRatio : string) : GenerateContentParameters :=
  {| model := "gemini-2.5-flash-image-preview";
     contents :=
       {| parts := Some
            [ {| inlineData := Some {| data := base64ImageData;
                                       mimeType := Some mimeType |};
                 text := None |};
              {| inlineData := None;
                 text := Some (instruction aspectRatio) |} ] |};
     config := {| responseModalities := [IMAGE; TEXT] |} |}.

(** Lines 51-57: the scan of the response and the [throw] behind the loop. *)
Definition read_image {H : Host} (response : GenerateContentResponse) : M H string :=
  candidate <- get_property (candidates response) "0" (fun cs => nth_error cs 0) ;;
  content' <- get_property candidate "content" content ;;
  parts' <- get_property content' "parts" parts ;;
  iterable <- get_iterator parts' ;;
  match for_of_parts iterable with
  | Some image => ret image
  | None => throw (new_Error no_image_message)
  end.

(** [transformToIdPhoto(base64ImageData, mimeType, aspectRatio)] as a call
    expression whose first argument may evaluate to [undefined]. *)
Definition call_transformToIdPhoto {H : Host} (ai : GoogleGenAI H)
    (base64ImageData : option string) (mimeType aspectRatio : string) : M H string :=
  try (response <- await_generateContent ai
                     (request_from base64ImageData mimeType aspectRatio) ;;
       read_image response)
  catch catch_block.

(** What the loop reads of a part: [part.inlineData.data], if there. *)
Definition payload (part : Part) : option string :=
  match inlineData part with
  | Some blob => data blob
  | None => None
  end.

(** ** Strings *)

Lemma prefix_append (p s : string) : prefix p (p ++ s) = true.
Proof.
  induction p as [|c p IH]; simpl.
  - now destruct s.
  - destruct (ascii_dec c c); [exact IH | congruence].
Qed.





(** ** The scan of the parts *)

Lemma has_image_data (part : Part) :
  has_image part = true <->
  exists blob d, inlineData part = Some blob /\ data blob = Some d /\ d <> "".
Proof.
  unfold has_image, truthy_string. split.
  - destruct (inlineData part) as [[[d|] mime]|]; simpl; try discriminate.
    destruct (String.eqb_spec d ""); [discriminate|].
    intros _. exists (mkBlob (Some d) mime), d. auto.
  - intros (blob & d & -> & -> & Hd).
    now destruct (String.eqb_spec d "").
Qed.

Lemma image_of_data (part : Part) (blob : Blob) (d : string) :
  inlineData part = Some blob -> data blob = Some d -> image_of part = d.
Proof. unfold image_of. intros ->. destruct blob; simpl. now intros ->. Qed.

Lemma for_of_parts_none (ps : list Part) :
  for_of_parts ps = None <-> Forall (fun part => has_image part = false) ps.
Proof.
  induction ps as [|part rest IH]; simpl.
  - split; auto.
  - destruct (has_image part) eqn:E.
    + split; [discriminate | intros F; inversion F; congruence].
    + rewrite IH. split; [auto | intros F; now inversion F].
Qed.

Lemma for_of_parts_first (pre post : list Part) (part : Part) :
  for_of_parts pre = None -> has_image part = true ->
  for_of_parts (pre ++ part :: post)%list = Some (image_of part).
Proof.
  intros Hpre Hpart. induction pre as [|q pre IH]; simpl in *.
  - now rewrite Hpart.
  - destruct (has_image q); [discriminate | auto].
Qed.

Lemma for_of_parts_some (ps : list Part) (d : string) :
  for_of_parts ps = Some d ->
  exists pre part post,
    ps = (pre ++ part :: post)%list /\ for_of_parts pre = None /\
    has_image part = true /\ image_of part = d.
Proof.
  induction ps as [|q rest IH]; simpl; [discriminate|].
  destruct (has_image q) eqn:E.
  - intros [= <-]. now exists [], q, rest.
  - intros Hrest. destruct (IH Hrest) as (pre & part & post & -> & Hpre & Hp & Hd).
    exists (q :: pre), part, post. simpl. now rewrite E.
Qed.

(** ** Running the two blocks *)

Section Runs.

Context {H : Host}.
Variables (ai : GoogleGenAI H) (base64ImageData mimeType aspectRatio : string).

Lemma try_block_transport_failure (w : World H) (cause : Value) (s : Service H) :
  generateContent H ai (request base64ImageData mimeType aspectRatio) (service w)
  = (Throw cause, s) ->
  try_block ai base64ImageData mimeType aspectRatio w
  = (Throw cause, after_call (request base64ImageData mimeType aspectRatio) w s).
Proof.
  intros Hcall. unfold try_block, bind, await_generateContent.
  now rewrite Hcall.
Qed.

Lemma try_block_response (w : World H) (response : GenerateContentResponse) (s : Service H) :
  generateContent H ai (request base64ImageData mimeType aspectRatio) (service w)
  = (Normal response, s) ->
  try_block ai base64ImageData mimeType aspectRatio w =
  (candidate <- get_property (candidates response) "0" (fun cs => nth_error cs 0) ;;
   content' <- get_property candidate "content" content ;;
   parts' <- get_property content' "parts" parts ;;
   iterable <- get_iterator parts' ;;
   match for_of_parts iterable with
   | Some image => ret image
   | None => throw (new_Error no_image_message)
   end) (after_call (request base64ImageData mimeType aspectRatio) w s).
Proof.
  intros Hcall. unfold try_block at 1, bind at 1, await_generateContent.
  now rewrite Hcall.
Qed.

Lemma try_block_scan (w : World H) (response : GenerateContentResponse) (s : Service H)
    (c : Candidate) (cs : list Candidate) (ct : Content) (ps : list Part) :
  generateContent H ai (request base64ImageData mimeType aspectRatio) (service w)
  = (Normal response, s) ->
  candidates response = Some (c :: cs) ->
  content c = Some ct ->
  parts ct = Some ps ->
  try_block ai base64ImageData mimeType aspectRatio w =
  (match for_of_parts ps with
   | Some image => Normal image
   | None => Throw (new_Error no_image_message)
   end, after_call (request base64ImageData mimeType aspectRatio) w s).
Proof.
  intros Hcall Hc Hct Hps. rewrite (try_block_response _ _ _ Hcall).
  unfold bind, get_property, get_iterator, ret, throw.
  rewrite Hc. simpl. rewrite Hct, Hps.
  now destruct (for_of_parts ps).
Qed.

Lemma catch_block_run (cause : Value) (w : World H) :
  catch_block cause w = (Throw (new_Error (normalised cause)), after_catch w cause).
Proof.
  unfold catch_block, normalised, bind, console_error, throw. simpl.
  now destruct (instanceof_Error cause).
Qed.

Lemma transformToIdPhoto_run (w : World H) :
  transformToIdPhoto ai base64ImageData mimeType aspectRatio w =
  match try_block ai base64ImageData mimeType aspectRatio w with
  | (Normal image, w') => (Normal image, w')
  | (Throw cause, w') => (Throw (new_Error (normalised cause)), after_catch w' cause)
  end.
Proof.
  unfold transformToIdPhoto, try_catch.
  destruct (try_block _ _ _ _ w) as [[image|cause] w']; [reflexivity|].
  apply catch_block_run.
Qed.

(** Whatever the service does, the [try] block hands it the request once,
    writes nothing to the console, and leaves the service where
    [generateContent] left it. *)
Lemma try_block_effects (w : World H) :
  snd (try_block ai base64ImageData mimeType aspectRatio w) =
  after_call (request base64ImageData mimeType aspectRatio) w
    (snd (generateContent H ai (request base64ImageData mimeType aspectRatio) (service w))).
Proof.
  destruct (generateContent H ai (request base64ImageData mimeType aspectRatio) (service w))
    as [[response|cause] s] eqn:Hcall.
  - rewrite (try_block_response _ _ _ Hcall).
    unfold bind, get_property, get_iterator, ret, throw.
    destruct (candidates response) as [[|c cs]|]; simpl; try reflexivity.
    destruct (content c) as [ct|]; simpl; try reflexivity.
    destruct (parts ct) as [ps|]; simpl; try reflexivity.
    now destruct (for_of_parts ps).
  - now rewrite (try_block_transport_failure _ _ _ Hcall).
Qed.

End Runs.

(** ** The two examples of the specification, run on the scripted host *)

Example resolves_with_the_image :
  fst (transformToIdPhoto (H := scripted) (Some "key") "photoBytes" "image/png" "3:4"
         (fresh [Normal (response_of [text_part "ok"; image_part "QUJD" "image/png"])]))
  = Normal "QUJD".
Proof. reflexivity. Qed.

Example rejects_without_image :
  fst (transformToIdPhoto (H := scripted) (Some "key") "photoBytes" "image/png" "3:4"
         (fresh [Normal (response_of [text_part "sorry"])]))
  = Throw (new_Error
      "Failed to generate ID photo: The AI did not return an image. Please try a different photo.").
Proof. reflexivity. Qed.

(** ** Response handling *)

(** C1: when the service answers and the part list of the first candidate
    holds a part with inline image data (an [inlineData] whose [data] is a
    non-empty string), the call resolves with exactly the [data] of the first
    such part: the parts before it carry no image (text parts, say, however
    many), and whatever follows it, text or further images, is never looked
    at.  Nothing is written to the console. *)
Theorem first_image_is_returned {H : Host} (ai : GoogleGenAI H)
    (base64ImageData mimeType aspectRatio : string) (w : World H)
    (response : GenerateContentResponse) (s : Service H)
    (c : Candidate) (cs : list Candidate) (ct : Content)
    (pre post : list Part) (part : Part) (blob : Blob) (d : string)
    (Hcall : generateContent H ai (request base64ImageData mimeType aspectRatio) (service w)
             = (Normal response, s))
    (Hcandidates : candidates response = Some (c :: cs))
    (Hcontent : content c = Some ct)
    (Hparts : parts ct = Some (pre ++ part :: post)%list)
    (Hpre : Forall (fun q => has_image q = false) pre)
    (Hinline : inlineData part = Some blob)
    (Hdata : data blob = Some d)
    (Hnonempty : d <> "") :
  transformToIdPhoto ai base64ImageData mimeType aspectRatio w =
  (Normal d, after_call (request base64ImageData mimeType aspectRatio) w s).
Proof.
  rewrite transformToIdPhoto_run.
  rewrite (try_block_scan _ _ _ _ _ _ _ _ _ _ _ Hcall Hcandidates Hcontent Hparts).
  assert (Himg : has_image part = true).
  { apply has_image_data. now exists blob, d. }
  rewrite for_of_parts_first; auto.
  - now rewrite (image_of_data _ _ _ Hinline Hdata).
  - now apply for_of_parts_none.
Qed.

Lemma first_image_is_returned_witness :
  transformToIdPhoto (H := scripted) None "photoBytes" "image/png" "3:4"
    (fresh [Normal (response_of five_parts)])
  = (Normal "QUJD", after_call (request "photoBytes" "image/png" "3:4") (fresh []) []).
Proof.
  apply (first_image_is_returned (H := scripted) None "photoBytes" "image/png" "3:4"
           (fresh [Normal (response_of five_parts)])
           (response_of five_parts) [] (candidate_of five_parts) [] (content_of five_parts)
           [text_part "ok"; text_part "here it is"]
           [text_part "bye"; image_part "REVG" "image/png"]
           (image_part "QUJD" "image/png")
           {| data := Some "QUJD"; mimeType := Some "image/png" |} "QUJD");
    try reflexivity.
  - repeat constructor.
  - discriminate.
Defined.

(** C2: when the service answers with parts none of which has inline data
    (text parts only), the call rejects with an [Error] whose message is the
    fixed no-image message behind the prefix of the [catch] block; the
    no-image error itself goes to the console. *)
Theorem text_only_response_is_rejected {H : Host} (ai : GoogleGenAI H)
    (base64ImageData mimeType aspectRatio : string) (w : World H)
    (response : GenerateContentResponse) (s : Service H)
    (c : Candidate) (cs : list Candidate) (ct : Content) (ps : list Part)
    (Hcall : generateContent H ai (request base64ImageData mimeType aspectRatio) (service w)
             = (Normal response, s))
    (Hcandidates : candidates response = Some (c :: cs))
    (Hcontent : content c = Some ct)
    (Hparts : parts ct = Some ps)
    (Htext : Forall (fun part => inlineData part = None) ps) :
  transformToIdPhoto ai base64ImageData mimeType aspectRatio w =
  (Throw (new_Error
     "Failed to generate ID photo: The AI did not return an image. Please try a different photo."),
   after_catch (after_call (request base64ImageData mimeType aspectRatio) w s)
     (new_Error "The AI did not return an image. Please try a different photo.")).
Proof.
  rewrite transformToIdPhoto_run.
  rewrite (try_block_scan _ _ _ _ _ _ _ _ _ _ _ Hcall Hcandidates Hcontent Hparts).
  assert (Hnone : for_of_parts ps = None).
  { apply for_of_parts_none. eapply Forall_impl; [|exact Htext].
    intros part Hp. unfold has_image. now rewrite Hp. }
  now rewrite Hnone.
Qed.

Lemma text_only_response_is_rejected_witness :
  fst (transformToIdPhoto (H := scripted) None "photoBytes" "image/png" "3:4"
         (fresh [Normal (response_of [text_part "sorry"; text_part "no luck"])]))
  = Throw (new_Error
      "Failed to generate ID photo: The AI did not return an image. Please try a different photo.").
Proof.
  rewrite (text_only_response_is_rejected (H := scripted) None "photoBytes" "image/png" "3:4"
             (fresh [Normal (response_of [text_part "sorry"; text_part "no luck"])])
             (response_of [text_part "sorry"; text_part "no luck"]) []
             (candidate_of [text_part "sorry"; text_part "no luck"]) []
             (content_of [text_part "sorry"; text_part "no luck"])
             [text_part "sorry"; text_part "no luck"]
             eq_refl eq_refl eq_refl eq_refl).
  - reflexivity.
  - repeat constructor.
Defined.

(** C9: a part whose [inlineData] has an absent or empty [data] fails the
    test of the loop and is passed over; when every part with [inlineData]
    is of that kind the scan finds nothing and the call rejects with the
    no-image error, inline-data parts or not. *)
Theorem empty_payloads_are_skipped {H : Host} (ai : GoogleGenAI H)
    (base64ImageData mimeType aspectRatio : string) (w : World H)
    (response : GenerateContentResponse) (s : Service H)
    (c : Candidate) (cs : list Candidate) (ct : Content) (ps : list Part)
    (Hcall : generateContent H ai (request base64ImageData mimeType aspectRatio) (service w)
             = (Normal response, s))
    (Hcandidates : candidates response = Some (c :: cs))
    (Hcontent : content c = Some ct)
    (Hparts : parts ct = Some ps)
    (Hempty : Forall (fun part => forall blob, inlineData part = Some blob ->
                                   data blob = None \/ data blob = Some "") ps) :
  (forall part rest, In part ps ->
     for_of_parts (part :: rest) = for_of_parts rest) /\
  transformToIdPhoto ai base64ImageData mimeType aspectRatio w =
  (Throw (new_Error
     "Failed to generate ID photo: The AI did not return an image. Please try a different photo."),
   after_catch (after_call (request base64ImageData mimeType aspectRatio) w s)
     (new_Error "The AI did not return an image. Please try a different photo.")).
Proof.
  assert (Hno : Forall (fun part => has_image part = false) ps).
  { eapply Forall_impl; [|exact Hempty].
    intros part Hp. unfold has_image. simpl in Hp.
    destruct (inlineData part) as [blob|]; [|reflexivity].
    now destruct (Hp blob eq_refl) as [-> | ->]. }
  split.
  - intros part rest Hin. simpl.
    rewrite Forall_forall in Hno. now rewrite (Hno part Hin).
  - rewrite transformToIdPhoto_run.
    rewrite (try_block_scan _ _ _ _ _ _ _ _ _ _ _ Hcall Hcandidates Hcontent Hparts).
    apply for_of_parts_none in Hno. now rewrite Hno.
Qed.

Lemma empty_payloads_are_skipped_witness :
  fst (transformToIdPhoto (H := scripted) None "photoBytes" "image/png" "3:4"
         (fresh [Normal (response_of
            [empty_image_part "image/png"; text_part "sorry"; blank_image_part "image/png"])]))
  = Throw (new_Error
      "Failed to generate ID photo: The AI did not return an image. Please try a different photo.").
Proof.
  unshelve epose proof
   (empty_payloads_are_skipped (H := scripted) None "photoBytes" "image/png" "3:4"
      (fresh [Normal (response_of
         [empty_image_part "image/png"; text_part "sorry"; blank_image_part "image/png"])])
      (response_of
         [empty_image_part "image/png"; text_part "sorry"; blank_image_part "image/png"]) []
      (candidate_of
         [empty_image_part "image/png"; text_part "sorry"; blank_image_part "image/png"]) []
      (content_of
         [empty_image_part "image/png"; text_part "sorry"; blank_image_part "image/png"])
      [empty_image_part "image/png"; text_part "sorry"; blank_image_part "image/png"]
      eq_refl eq_refl eq_refl eq_refl _) as [_ Hrun].
  - repeat first [apply Forall_nil | apply Forall_cons];
      intros blob [= <-]; simpl; auto.
  - now rewrite Hrun.
Defined.

(** ** Failure handling *)

(** The scan faults before it starts when the response has no candidates,
    an empty candidate list, a candidate without content, or a content
    without a part list. *)
Lemma try_block_scan_faults {H : Host} (ai : GoogleGenAI H)
    (base64ImageData mimeType aspectRatio : string) (w : World H)
    (response : GenerateContentResponse) (s : Service H) :
  generateContent H ai (request base64ImageData mimeType aspectRatio) (service w)
  = (Normal response, s) ->
  (forall c cs ct ps, candidates response = Some (c :: cs) ->
                      content c = Some ct -> parts ct <> Some ps) ->
  exists m,
    try_block ai base64ImageData mimeType aspectRatio w =
    (Throw (new_TypeError m),
     after_call (request base64ImageData mimeType aspectRatio) w s).
Proof.
  intros Hcall Hshape. rewrite (try_block_response _ _ _ _ _ _ _ Hcall).
  unfold bind, get_property, get_iterator, ret, throw.
  destruct (candidates response) as [[|c cs]|] eqn:Hc; simpl; eauto.
  destruct (content c) as [ct|] eqn:Hct; simpl; eauto.
  destruct (parts ct) as [ps|] eqn:Hps; simpl; eauto.
  now destruct (Hshape c cs ct ps).
Qed.


Example missing_candidates_fault :
  fst (transformToIdPhoto (H := scripted) None "photoBytes" "image/png" "3:4"
         (fresh [Normal {| candidates := None |}]))
  = Throw (new_Error
      "Failed to generate ID photo: Cannot read properties of undefined (reading '0')").
Proof. reflexivity. Qed.

Example empty_candidates_fault :
  fst (transformToIdPhoto (H := scripted) None "photoBytes" "image/png" "3:4"
         (fresh [Normal {| candidates := Some [] |}]))
  = Throw (new_Error
      "Failed to generate ID photo: Cannot read properties of undefined (reading 'content')").
Proof. reflexivity. Qed.

Example missing_parts_fault :
  fst (transformToIdPhoto (H := scripted) None "photoBytes" "image/png" "3:4"
         (fresh [Normal {| candidates := Some [ {| content := Some {| parts := None |} |} ] |}]))
  = Throw (new_Error "Failed to generate ID photo: undefined is not iterable").
Proof. reflexivity. Qed.

Example thrown_string_is_generic :
  fst (transformToIdPhoto (H := scripted) None "photoBytes" "image/png" "3:4"
         (fresh [Throw (Str "quota exceeded")]))
  = Throw (new_Error "An unknown error occurred while generating the ID photo.").
Proof. reflexivity. Qed.

(** C3: whatever the [try] block throws (the value the awaited call failed
    with, the no-image error, a fault of the scan) is caught and replaced
    by one fresh [Error]: its message is the prefix followed by the cause's
    message when the cause is an [Error] instance, and the fixed generic
    message otherwise.  The call then ends by throwing, with no value
    returned, and the cause is logged on the console. *)
Theorem failures_are_normalised {H : Host} (ai : GoogleGenAI H)
    (base64ImageData mimeType aspectRatio : string) (w w' : World H) (cause : Value)
    (Hfail : try_block ai base64ImageData mimeType aspectRatio w = (Throw cause, w')) :
  exists message,
    transformToIdPhoto ai base64ImageData mimeType aspectRatio w
    = (Throw (new_Error message), after_catch w' cause) /\
    (instanceof_Error cause = true ->
     message = "Failed to generate ID photo: " ++ message_of cause) /\
    (instanceof_Error cause = false ->
     message = "An unknown error occurred while generating the ID photo.").
Proof.
  exists (normalised cause). rewrite transformToIdPhoto_run, Hfail.
  unfold normalised. split; [reflexivity|].
  destruct (instanceof_Error cause); split; intros; auto; discriminate.
Qed.

Lemma failures_are_normalised_witness :
  exists message,
    transformToIdPhoto (H := scripted) None "photoBytes" "image/png" "3:4" (fresh [])
    = (Throw (new_Error message),
       after_catch (after_call (request "photoBytes" "image/png" "3:4") (fresh []) [])
         (new_TypeError "fetch failed")) /\
    (instanceof_Error (new_TypeError "fetch failed") = true ->
     message = "Failed to generate ID photo: " ++ message_of (new_TypeError "fetch failed")) /\
    (instanceof_Error (new_TypeError "fetch failed") = false ->
     message = "An unknown error occurred while generating the ID photo.").
Proof.
  apply (failures_are_normalised (H := scripted) None "photoBytes" "image/png" "3:4"
           (fresh []) _ (new_TypeError "fetch failed")).
  reflexivity.
Defined.

(** C10: for every host, every input and every world, hence for every
    response the service can produce, the shapes on which the scan faults
    included, a rejected call carries an [Error] made by the [catch] block:
    its message starts with the prefix or is the generic message. *)
Theorem rejections_are_uniform {H : Host} (ai : GoogleGenAI H)
    (base64ImageData mimeType aspectRatio : string) (w : World H) (thrown : Value)
    (Hrejected : fst (transformToIdPhoto ai base64ImageData mimeType aspectRatio w)
                 = Throw thrown) :
  exists message,
    thrown = new_Error message /\
    (prefix "Failed to generate ID photo: " message = true \/
     message = "An unknown error occurred while generating the ID photo.").
Proof.
  rewrite transformToIdPhoto_run in Hrejected.
  destruct (try_block _ _ _ _ w) as [[image|cause] w']; simpl in Hrejected; [discriminate|].
  injection Hrejected as <-. exists (normalised cause). split; [reflexivity|].
  unfold normalised. destruct (instanceof_Error cause); [left | now right].
  apply (prefix_append failed_prefix).
Qed.

Lemma rejections_are_uniform_witness :
  exists message,
    new_Error "Failed to generate ID photo: Cannot read properties of undefined (reading '0')"
    = new_Error message /\
    (prefix "Failed to generate ID photo: " message = true \/
     message = "An unknown error occurred while generating the ID photo.").
Proof.
  apply (rejections_are_uniform (H := scripted) None "photoBytes" "image/png" "3:4"
           (fresh [Normal {| candidates := None |}])).
  reflexivity.
Defined.

(** ** The request *)



(** The outcome of the [try] block and the service state it leaves depend
    on the state of the service alone; console and request log are only
    appended to. *)
Lemma try_block_frame {H : Host} (ai : GoogleGenAI H)
    (base64ImageData mimeType aspectRatio : string) (w1 w2 : World H) :
  service w1 = service w2 ->
  exists r s,
    try_block ai base64ImageData mimeType aspectRatio w1
    = (r, after_call (request base64ImageData mimeType aspectRatio) w1 s) /\
    try_block ai base64ImageData mimeType aspectRatio w2
    = (r, after_call (request base64ImageData mimeType aspectRatio) w2 s).
Proof.
  intros Hservice.
  destruct (generateContent H ai (request base64ImageData mimeType aspectRatio) (service w1))
    as [[response|cause] s] eqn:Hcall1.
  - assert (Hcall2 := Hcall1). rewrite Hservice in Hcall2.
    rewrite (try_block_response _ _ _ _ _ _ _ Hcall1), (try_block_response _ _ _ _ _ _ _ Hcall2).
    unfold bind, get_property, get_iterator, ret, throw.
    destruct (candidates response) as [[|c cs]|]; simpl; eauto.
    destruct (content c) as [ct|]; simpl; eauto.
    destruct (parts ct) as [ps|]; simpl; eauto.
    destruct (for_of_parts ps); eauto.
  - assert (Hcall2 := Hcall1). rewrite Hservice in Hcall2.
    rewrite (try_block_transport_failure _ _ _ _ _ _ _ Hcall1),
            (try_block_transport_failure _ _ _ _ _ _ _ Hcall2).
    eauto.
Qed.

Lemma transformToIdPhoto_frame {H : Host} (ai : GoogleGenAI H)
    (base64ImageData mimeType aspectRatio : string) (w1 w2 : World H) :
  service w1 = service w2 ->
  exists r entries s,
    transformToIdPhoto ai base64ImageData mimeType aspectRatio w1
    = (r, mkWorld (console w1 ++ entries)
            (sent w1 ++ [request base64ImageData mimeType aspectRatio]) s) /\
    transformToIdPhoto ai base64ImageData mimeType aspectRatio w2
    = (r, mkWorld (console w2 ++ entries)
            (sent w2 ++ [request base64ImageData mimeType aspectRatio]) s).
Proof.
  intros Hservice.
  destruct (try_block_frame ai base64ImageData mimeType aspectRatio w1 w2 Hservice)
    as (r & s & H1 & H2).
  rewrite !transformToIdPhoto_run, H1, H2.
  destruct r as [image|cause].
  - exists (Normal image), [], s. unfold after_call. now rewrite !app_nil_r.
  - now exists (Throw (new_Error (normalised cause))),
               [Error "Error calling Gemini API:" cause], s.
Qed.

(** Every call hands the SDK its request exactly once and leaves the service
    in the state the SDK call left it. *)
Lemma transformToIdPhoto_effects {H : Host} (ai : GoogleGenAI H)
    (base64ImageData mimeType aspectRatio : string) (w : World H) :
  sent (snd (transformToIdPhoto ai base64ImageData mimeType aspectRatio w))
  = (sent w ++ [request base64ImageData mimeType aspectRatio])%list /\
  service (snd (transformToIdPhoto ai base64ImageData mimeType aspectRatio w))
  = snd (generateContent H ai (request base64ImageData mimeType aspectRatio) (service w)).
Proof.
  rewrite transformToIdPhoto_run.
  pose proof (try_block_effects ai base64ImageData mimeType aspectRatio w) as Heff.
  destruct (try_block _ _ _ _ w) as [[image|cause] w']; simpl in *; subst w'; auto.
Qed.

Lemma try_block_normal {H : Host} (ai : GoogleGenAI H)
    (base64ImageData mimeType aspectRatio : string) (w w' : World H) (d : string) :
  try_block ai base64ImageData mimeType aspectRatio w = (Normal d, w') ->
  exists response s c cs ct ps,
    generateContent H ai (request base64ImageData mimeType aspectRatio) (service w)
    = (Normal response, s) /\
    candidates response = Some (c :: cs) /\
    content c = Some ct /\
    parts ct = Some ps /\
    for_of_parts ps = Some d.
Proof.
  destruct (generateContent H ai (request base64ImageData mimeType aspectRatio) (service w))
    as [[response|cause] s] eqn:Hcall.
  - rewrite (try_block_response _ _ _ _ _ _ _ Hcall).
    unfold bind, get_property, get_iterator, ret, throw.
    destruct (candidates response) as [[|c cs]|] eqn:Hc; simpl; try discriminate.
    destruct (content c) as [ct|] eqn:Hct; simpl; try discriminate.
    destruct (parts ct) as [ps|] eqn:Hps; simpl; try discriminate.
    destruct (for_of_parts ps) as [image|] eqn:Hscan; try discriminate.
    intros [= <- <-]. now exists response, s, c, cs, ct, ps.
  - rewrite (try_block_transport_failure _ _ _ _ _ _ _ Hcall). discriminate.
Qed.

(** C5: the request holds two parts, of which exactly one is an inline-data
    part, the source image under its media type, and exactly one is a text
    part, the instruction; this is the one request the call sends.  On the
    way back, a call that resolves with [d] found [d] as the payload of the
    first image-carrying part of the first candidate: the parts before it
    carry none, and the parts after it, images included, have no influence
    on the result. *)
Theorem one_image_in_one_image_out {H : Host} (ai : GoogleGenAI H)
    (base64ImageData mimeType aspectRatio : string) (w : World H) :
  (exists ps,
     parts (contents (request base64ImageData mimeType aspectRatio)) = Some ps /\
     List.length ps = 2 /\
     filter carries_inline ps = [image_part base64ImageData mimeType] /\
     filter carries_text ps = [text_part (instruction aspectRatio)]) /\
  sent (snd (transformToIdPhoto ai base64ImageData mimeType aspectRatio w))
  = (sent w ++ [request base64ImageData mimeType aspectRatio])%list /\
  (forall d,
     fst (transformToIdPhoto ai base64ImageData mimeType aspectRatio w) = Normal d ->
     exists response s c cs ct pre part post,
       generateContent H ai (request base64ImageData mimeType aspectRatio) (service w)
       = (Normal response, s) /\
       candidates response = Some (c :: cs) /\
       content c = Some ct /\
       parts ct = Some (pre ++ part :: post)%list /\
       Forall (fun q => has_image q = false) pre /\
       has_image part = true /\
       image_of part = d /\
       forall others, for_of_parts (pre ++ part :: others)%list = Some d).
Proof.
  split; [|split].
  - eexists. split; [reflexivity|]. now repeat split.
  - apply transformToIdPhoto_effects.
  - intros d Hresolved. rewrite transformToIdPhoto_run in Hresolved.
    destruct (try_block _ _ _ _ w) as [[image|cause] w'] eqn:Htry; [|discriminate].
    simpl in Hresolved. injection Hresolved as ->.
    destruct (try_block_normal _ _ _ _ _ _ _ Htry)
      as (response & s & c & cs & ct & ps & Hcall & Hc & Hct & Hps & Hscan).
    destruct (for_of_parts_some _ _ Hscan) as (pre & part & post & -> & Hpre & Hpart & Hd).
    exists response, s, c, cs, ct, pre, part, post.
    repeat (split; [assumption|]).
    split; [now apply for_of_parts_none|].
    repeat (split; [assumption|]).
    intros others. rewrite <- Hd. now apply for_of_parts_first.
Qed.

Lemma one_image_in_one_image_out_witness :
  exists pre part post,
    five_parts = (pre ++ part :: post)%list /\
    Forall (fun q => has_image q = false) pre /\
    image_of part = "QUJD".
Proof.
  destruct (one_image_in_one_image_out (H := scripted) None "photoBytes" "image/png" "3:4"
              (fresh [Normal (response_of five_parts)]))
    as (_ & _ & Hback).
  destruct (Hback "QUJD" eq_refl)
    as (response & s & c & cs & ct & pre & part & post
        & Hcall & Hc & Hct & Hps & Hpre & _ & Hd & _).
  injection Hcall as <- _. injection Hc as <- _. injection Hct as <-.
  injection Hps as Hps.
  now exists pre, part, post.
Defined.

(** C6: the request the call sends asks for the response modalities
    [IMAGE] and [TEXT], both of them and in this order. *)
Theorem both_modalities_are_requested {H : Host} (ai : GoogleGenAI H)
    (base64ImageData mimeType aspectRatio : string) (w : World H) :
  exists req,
    sent (snd (transformToIdPhoto ai base64ImageData mimeType aspectRatio w))
    = (sent w ++ [req])%list /\
    req = request base64ImageData mimeType aspectRatio /\
    responseModalities (config req) = [IMAGE; TEXT] /\
    In IMAGE (responseModalities (config req)) /\
    In TEXT (responseModalities (config req)).
Proof.
  exists (request base64ImageData mimeType aspectRatio).
  split; [apply transformToIdPhoto_effects|].
  repeat split; simpl; auto.
Qed.

(** ** Independence of calls *)

(** C7: take two calls with the same inputs, one after the other.  Both
    hand the SDK the same request, a function of the three inputs only.
    The second call behaves as it would have in the world the first call
    never ran in, given the service in the state the first call left it: it
    has the same outcome, leaves the service in the same state and adds the
    same lines to the console.  So nothing passes from one call to the next
    within the module; the remote service is the only link. *)
Theorem calls_are_independent {H : Host} (ai : GoogleGenAI H)
    (base64ImageData mimeType aspectRatio : string) (w : World H) :
  exists (req : GenerateContentParameters) (entries : list ConsoleEntry),
    req = request base64ImageData mimeType aspectRatio /\
    sent (snd (transformToIdPhoto ai base64ImageData mimeType aspectRatio w))
    = (sent w ++ [req])%list /\
    sent (snd (transformToIdPhoto ai base64ImageData mimeType aspectRatio
                 (snd (transformToIdPhoto ai base64ImageData mimeType aspectRatio w))))
    = (sent w ++ [req; req])%list /\
    fst (transformToIdPhoto ai base64ImageData mimeType aspectRatio
           (snd (transformToIdPhoto ai base64ImageData mimeType aspectRatio w)))
    = fst (transformToIdPhoto ai base64ImageData mimeType aspectRatio
             (with_service w
                (snd (transformToIdPhoto ai base64ImageData mimeType aspectRatio w)))) /\
    service (snd (transformToIdPhoto ai base64ImageData mimeType aspectRatio
                    (snd (transformToIdPhoto ai base64ImageData mimeType aspectRatio w))))
    = service (snd (transformToIdPhoto ai base64ImageData mimeType aspectRatio
                      (with_service w
                         (snd (transformToIdPhoto ai base64ImageData mimeType aspectRatio w))))) /\
    console (snd (transformToIdPhoto ai base64ImageData mimeType aspectRatio
                    (snd (transformToIdPhoto ai base64ImageData mimeType aspectRatio w))))
    = (console (snd (transformToIdPhoto ai base64ImageData mimeType aspectRatio w))
       ++ entries)%list /\
    console (snd (transformToIdPhoto ai base64ImageData mimeType aspectRatio
                    (with_service w
                       (snd (transformToIdPhoto ai base64ImageData mimeType aspectRatio w)))))
    = (console w ++ entries)%list.
Proof.
  destruct (transformToIdPhoto_effects ai base64ImageData mimeType aspectRatio w)
    as [Hsent _].
  set (w1 := snd (transformToIdPhoto ai base64ImageData mimeType aspectRatio w)) in *.
  destruct (transformToIdPhoto_frame ai base64ImageData mimeType aspectRatio
              w1 (with_service w w1) eq_refl)
    as (r & entries & s & Hsecond & Hreplay).
  exists (request base64ImageData mimeType aspectRatio), entries.
  rewrite Hsecond, Hreplay. simpl.
  repeat split; try assumption.
  rewrite Hsent, <- app_assoc. reflexivity.
Qed.

(** The general form: two worlds that agree on the state of the service
    give the same outcome, whatever their consoles and request logs hold. *)
Lemma outcome_depends_on_service_only {H : Host} (ai : GoogleGenAI H)
    (base64ImageData mimeType aspectRatio : string) (w1 w2 : World H) :
  service w1 = service w2 ->
  fst (transformToIdPhoto ai base64ImageData mimeType aspectRatio w1)
  = fst (transformToIdPhoto ai base64ImageData mimeType aspectRatio w2).
Proof.
  intros Hservice.
  destruct (transformToIdPhoto_frame ai base64ImageData mimeType aspectRatio w1 w2 Hservice)
    as (r & entries & s & -> & ->).
  reflexivity.
Qed.

Example two_calls_two_answers :
  let w1 := snd (transformToIdPhoto (H := scripted) None "photoBytes" "image/png" "3:4"
                   (fresh [Normal (response_of [text_part "sorry"]);
                           Normal (response_of [image_part "QUJD" "image/png"])])) in
  fst (transformToIdPhoto (H := scripted) None "photoBytes" "image/png" "3:4" w1)
  = Normal "QUJD" /\
  sent w1 = [request "photoBytes" "image/png" "3:4"].
Proof. split; reflexivity. Qed.

(** ** Module initialisation *)

Lemma module_init_run {H : Host} (env_API_KEY : option string) (w : World H) :
  module_init env_API_KEY w =
  (match GoogleGenAI_new H env_API_KEY with
   | Normal client => Normal (mkModuleScope env_API_KEY client)
   | Throw v => Throw v
   end,
   mkWorld (console w ++ if truthy_string env_API_KEY then [] else [Warn missing_key_warning])
     (sent w) (service w)).
Proof.
  unfold module_init, bind, new_GoogleGenAI, console_warn, ret.
  destruct (truthy_string env_API_KEY); simpl;
    destruct (GoogleGenAI_new H env_API_KEY); simpl; try reflexivity;
    rewrite app_nil_r; now destruct w.
Qed.

Example key_present_no_warning :
  module_init (H := scripted) (Some "secret") (fresh [])
  = (Normal (mkModuleScope (H := scripted) (Some "secret") (Some "secret")), fresh []).
Proof. reflexivity. Qed.

Example empty_key_warns :
  console (snd (module_init (H := scripted) (Some "") (fresh [])))
  = [Warn missing_key_warning].
Proof. reflexivity. Qed.




(** ** Further properties of the service *)

Lemma call_transformToIdPhoto_string {H : Host} (ai : GoogleGenAI H)
    (base64ImageData mimeType aspectRatio : string) :
  call_transformToIdPhoto ai (Some base64ImageData) mimeType aspectRatio
  = transformToIdPhoto ai base64ImageData mimeType aspectRatio.
Proof. reflexivity. Qed.

(** The scan leaves the world alone and ends in one of two ways: with the
    non-empty payload of a part of the first candidate, or by throwing an
    [Error] instance (its own no-image error or the engine's [TypeError]). *)
Lemma read_image_cases {H : Host} (response : GenerateContentResponse) (w : World H) :
  (exists d c cs ct ps,
     read_image response w = (Normal d, w) /\ d <> "" /\
     candidates response = Some (c :: cs) /\ content c = Some ct /\
     parts ct = Some ps /\ for_of_parts ps = Some d) \/
  (exists name m, read_image response w = (Throw (ErrorInstance name m), w)).
Proof.
  unfold read_image, bind, get_property, get_iterator, ret, throw, new_TypeError, new_Error.
  destruct (candidates response) as [[|c cs]|] eqn:Hc; simpl; eauto.
  destruct (content c) as [ct|] eqn:Hct; simpl; eauto.
  destruct (parts ct) as [ps|] eqn:Hps; simpl; eauto.
  destruct (for_of_parts ps) as [d|] eqn:Hscan; eauto.
  left. exists d, c, cs, ct, ps. repeat split; auto.
  destruct (for_of_parts_some _ _ Hscan) as (pre & part & post & _ & _ & Himg & Hd).
  apply has_image_data in Himg. destruct Himg as (blob & d' & Hinline & Hdata & Hne).
  rewrite (image_of_data _ _ _ Hinline Hdata) in Hd. congruence.
Qed.

Lemma await_then {H : Host} {A : Type} (ai : GoogleGenAI H)
    (params : GenerateContentParameters) (k : GenerateContentResponse -> M H A)
    (w : World H) :
  (response <- await_generateContent ai params ;; k response) w
  = match generateContent H ai params (service w) with
    | (Normal response, s) => k response (after_call params w s)
    | (Throw cause, s) => (Throw cause, after_call params w s)
    end.
Proof.
  unfold bind, await_generateContent, after_call.
  now destruct (generateContent H ai params (service w)) as [[response|cause] s].
Qed.

(** Every call, whatever its first argument, sends its one request and then
    either resolves with a non-empty string, the console untouched, or
    rejects with the [catch] block's error, the cause on the console. *)
Lemma call_transformToIdPhoto_cases {H : Host} (ai : GoogleGenAI H)
    (base64ImageData : option string) (mimeType aspectRatio : string) (w : World H) :
  exists s,
    s = snd (generateContent H ai (request_from base64ImageData mimeType aspectRatio)
               (service w)) /\
    ((exists d,
        call_transformToIdPhoto ai base64ImageData mimeType aspectRatio w
        = (Normal d, after_call (request_from base64ImageData mimeType aspectRatio) w s) /\
        d <> "") \/
     (exists cause,
        call_transformToIdPhoto ai base64ImageData mimeType aspectRatio w
        = (Throw (new_Error (normalised cause)),
           after_catch (after_call (request_from base64ImageData mimeType aspectRatio) w s)
             cause))).
Proof.
  unfold call_transformToIdPhoto, try_catch.
  rewrite await_then.
  destruct (generateContent H ai (request_from base64ImageData mimeType aspectRatio) (service w))
    as [[response|cause] s]; simpl; exists s; split; auto.
  - destruct (read_image_cases response
                (after_call (request_from base64ImageData mimeType aspectRatio) w s))
      as [(d & c & cs & ct & ps & -> & Hne & _) | (name & m & ->)].
    + left. now exists d.
    + right. exists (ErrorInstance name m). apply catch_block_run.
  - right. exists cause. apply catch_block_run.
Qed.

(** X1: a call that resolves never resolves with the empty string: the
    value returned is the [data] of a part that passed the truthiness test
    of the loop. *)
Theorem resolved_image_is_not_empty {H : Host} (ai : GoogleGenAI H)
    (base64ImageData mimeType aspectRatio : string) (w : World H) (d : string)
    (Hresolved : fst (transformToIdPhoto ai base64ImageData mimeType aspectRatio w)
                 = Normal d) :
  d <> "".
Proof.
  rewrite <- call_transformToIdPhoto_string in Hresolved.
  destruct (call_transformToIdPhoto_cases ai (Some base64ImageData) mimeType aspectRatio w)
    as (s & _ & [(d' & Hrun & Hne) | (cause & Hrun)]);
    rewrite Hrun in Hresolved; simpl in Hresolved; congruence.
Qed.

Lemma resolved_image_is_not_empty_witness : "QUJD" <> "".
Proof.
  apply (resolved_image_is_not_empty (H := scripted) None "photoBytes" "image/png" "3:4"
           (fresh [Normal (response_of five_parts)])).
  reflexivity.
Defined.

(** X2: the loop reads nothing of a part but [inlineData.data].  Two part
    lists with the same payloads, position by position, give the same
    result, whatever their texts and media types are. *)
Theorem scan_reads_payloads_only (ps1 ps2 : list Part)
    (Hsame : map payload ps1 = map payload ps2) :
  for_of_parts ps1 = for_of_parts ps2.
Proof.
  revert ps2 Hsame. induction ps1 as [|p1 ps1 IH]; intros [|p2 ps2] Hsame;
    simpl in Hsame; try discriminate; [reflexivity|].
  injection Hsame as Hp Hrest. simpl.
  assert (Htest : has_image p1 = has_image p2).
  { unfold has_image. unfold payload in Hp.
    destruct (inlineData p1), (inlineData p2); simpl;
      first [now rewrite Hp | now rewrite <- Hp | reflexivity]. }
  assert (Hdata : has_image p1 = true -> image_of p1 = image_of p2).
  { unfold has_image, image_of. unfold payload in Hp.
    destruct (inlineData p1) as [[d1 m1]|], (inlineData p2) as [[d2 m2]|];
      simpl in *; try discriminate; intros _; now subst. }
  rewrite <- Htest. destruct (has_image p1); [now rewrite Hdata | now apply IH].
Qed.

Lemma scan_reads_payloads_only_witness :
  for_of_parts [text_part "ok"; image_part "QUJD" "image/png"]
  = for_of_parts [blank_image_part "image/webp";
                  {| inlineData := Some {| data := Some "QUJD"; mimeType := None |};
                     text := Some "caption" |}].
Proof.
  apply (scan_reads_payloads_only
           [text_part "ok"; image_part "QUJD" "image/png"]
           [blank_image_part "image/webp";
            {| inlineData := Some {| data := Some "QUJD"; mimeType := None |};
               text := Some "caption" |}]).
  reflexivity.
Defined.

(** X3: loading the module with any value of [API_KEY].  The warning is
    written exactly when the key is absent or the empty string; the key goes
    to the SDK constructor as it is in either case; nothing is sent; and the
    load fails exactly when the constructor throws, with what it threw. *)
Theorem module_load_warns_on_falsy_key {H : Host} (env_API_KEY : option string)
    (w : World H) :
  (env_API_KEY = None \/ env_API_KEY = Some "" ->
   console (snd (module_init env_API_KEY w)) = (console w ++ [Warn missing_key_warning])%list) /\
  (forall key, env_API_KEY = Some key -> key <> "" ->
   console (snd (module_init env_API_KEY w)) = console w) /\
  sent (snd (module_init env_API_KEY w)) = sent w /\
  service (snd (module_init env_API_KEY w)) = service w /\
  (forall client, GoogleGenAI_new H env_API_KEY = Normal client ->
   fst (module_init env_API_KEY w) = Normal (mkModuleScope env_API_KEY client)) /\
  (forall v, GoogleGenAI_new H env_API_KEY = Throw v ->
   fst (module_init env_API_KEY w) = Throw v).
Proof.
  rewrite module_init_run. simpl. repeat split.
  - now intros [-> | ->].
  - intros key -> Hkey. simpl.
    destruct (String.eqb_spec key ""); [contradiction|]. apply app_nil_r.
  - now intros client ->.
  - now intros v ->.
Qed.

Lemma module_load_warns_on_falsy_key_witness :
  console (snd (module_init (H := scripted) (Some "") (fresh [])))
  = [Warn missing_key_warning] /\
  console (snd (module_init (H := scripted) (Some "secret") (fresh []))) = [] /\
  fst (module_init (H := scripted) (Some "") (fresh []))
  = Normal (mkModuleScope (H := scripted) (Some "") (Some "")).
Proof.
  destruct (module_load_warns_on_falsy_key (H := scripted) (Some "") (fresh []))
    as (Hwarn & _ & _ & _ & Hok & _).
  destruct (module_load_warns_on_falsy_key (H := scripted) (Some "secret") (fresh []))
    as (_ & Hquiet & _).
  split; [exact (Hwarn (or_intror eq_refl))|].
  split; [apply (Hquiet "secret" eq_refl); discriminate|].
  exact (Hok (Some "") eq_refl).
Defined.

End geminiService.

(** * The component that calls the service

    [App] keeps seven state variables, renders one or two of five views from
    them, and reacts to the file input, the buttons, the file reader, the
    interval timer and the settling of the promise [transformToIdPhoto]
    returned.  State setters are always called with values, so a handler is
    the composition of its setters in source order. *)

Module App.
Import Js GenAI geminiService.

(** Modelled from the spec: the enumeration [AppStatus] of [./types], which
    is not among the sources.  These are the four members the component
    names: idle before a call, and the specification's pending, success and
    failure of the one call in flight. *)
Inductive AppStatus : Type :=
| IDLE
| PROCESSING
| SUCCESS
| ERROR.

(** [a === b] on two members of the enumeration. *)
Definition status_eqb (a b : AppStatus) : bool :=
  match a, b with
  | IDLE, IDLE | PROCESSING, PROCESSING | SUCCESS, SUCCESS | ERROR, ERROR => true
  | _, _ => false
  end.

(** What the component reads of a DOM [File]. *)
Record File : Type := mkFile {
  type : string
}.

(** The [useState] variables (lines 7-13); [None] is [null] or [undefined]. *)
Record State : Type := mkState {
  originalImage : option string;
  originalImageType : option string;
  generatedImage : option string;
  status : AppStatus;
  error : option string;
  processingMessage : option string;
  aspectRatio : string
}.

Definition initial : State :=
  {| originalImage := None;
     originalImageType := None;
     generatedImage := None;
     status := IDLE;
     error := None;
     processingMessage := Some "";
     aspectRatio := "3:4" |}.

Definition setOriginalImage (v : option string) (st : State) : State :=
  mkState v (originalImageType st) (generatedImage st) (status st) (error st)
    (processingMessage st) (aspectRatio st).

Definition setOriginalImageType (v : option string) (st : State) : State :=
  mkState (originalImage st) v (generatedImage st) (status st) (error st)
    (processingMessage st) (aspectRatio st).

Definition setGeneratedImage (v : option string) (st : State) : State :=
  mkState (originalImage st) (originalImageType st) v (status st) (error st)
    (processingMessage st) (aspectRatio st).

Definition setStatus (v : AppStatus) (st : State) : State :=
  mkState (originalImage st) (originalImageType st) (generatedImage st) v (error st)
    (processingMessage st) (aspectRatio st).

Definition setError (v : option string) (st : State) : State :=
  mkState (originalImage st) (originalImageType st) (generatedImage st) (status st) v
    (processingMessage st) (aspectRatio st).

Definition setProcessingMessage (v : option string) (st : State) : State :=
  mkState (originalImage st) (originalImageType st) (generatedImage st) (status st)
    (error st) v (aspectRatio st).

Definition setAspectRatio (v : string) (st : State) : State :=
  mkState (originalImage st) (originalImageType st) (generatedImage st) (status st)
    (error st) (processingMessage st) v.

(** Lines 15-23. *)
Definition processingMessages : list string :=
  [ "Analyzing facial features...";
    "Isolating subject from background...";
    "Adding a professional white shirt...";
    "Adjusting posture and gaze...";
    "Applying professional blue canvas...";
    "Finalizing your new ID photo...";
    "This may take a moment, creating magic..." ].

(** [resetState] (lines 73-79). *)
Definition resetState (st : State) : State :=
  setOriginalImageType None
    (setError None
       (setStatus IDLE
          (setGeneratedImage None
             (setOriginalImage None st)))).

(** [handleImageUpload] up to [reader.readAsDataURL(file)] (lines 25-45):
    the new state, and the file whose read was started, if any. *)
Definition handleImageUpload (file : option File) (st : State) : State * option File :=
  match file with
  | Some f =>
      if negb (prefix "image/" (type f))
      then (setStatus ERROR
              (setError (Some "Please upload a valid image file (PNG, JPG, etc.).") st),
            None)
      else (st, Some f)
  | None => (st, None)
  end.

(** [reader.onload], with [result] for [e.target?.result]. *)
Definition reader_onload (f : File) (result : option string) (st : State) : State :=
  setOriginalImageType (Some (type f))
    (setOriginalImage result
       (resetState st)).

(** [reader.onerror]. *)
Definition reader_onerror (st : State) : State :=
  setStatus ERROR (setError (Some "Failed to read the image file.") st).

(** [s.split(sep)] for a one-character separator. *)
Fixpoint split (sep : ascii) (s : string) : list string :=
  match s with
  | EmptyString => [EmptyString]
  | String c rest =>
      if Ascii.eqb c sep
      then EmptyString :: split sep rest
      else match split sep rest with
           | piece :: pieces => String c piece :: pieces
           | [] => [String c EmptyString]
           end
  end.

(** [handleGenerateClick] from its guard up to the call (lines 48-62): the
    state once the setters have run and the three arguments of the call;
    [None] when the guard returns. *)
Definition generate_begin (st : State) : option (State * (option string * string * string)) :=
  match originalImage st, originalImageType st with
  | Some image, Some imageType =>
      if (image =? "") || (imageType =? "")
      then None
      else
        let st' := setProcessingMessage (nth_error processingMessages 0)
                     (setError None
                        (setStatus PROCESSING st)) in
        let base64Data := nth_error (split "," image) 1 in
        Some (st', (base64Data, imageType, aspectRatio st))
  | _, _ => None
  end.

(** The interval callback (lines 55-58): the closure's [messageIndex] and
    the state. *)
Definition interval_tick (messageIndex : nat) (st : State) : nat * State :=
  let messageIndex' := (messageIndex + 1) mod List.length processingMessages in
  (messageIndex', setProcessingMessage (nth_error processingMessages messageIndex') st).

Fixpoint ticking (ticks messageIndex : nat) (st : State) : nat * State :=
  match ticks with
  | 0 => (messageIndex, st)
  | S ticks' =>
      let (messageIndex', st') := interval_tick messageIndex st in
      ticking ticks' messageIndex' st'
  end.

(** What follows the [await] (lines 63-67): the promise resolved with
    [generatedData], or rejected with [err]. *)
Definition generate_settle (outcome : Completion string) (st : State) : State :=
  match outcome with
  | Normal generatedData =>
      setStatus SUCCESS
        (setGeneratedImage (Some ("data:image/png;base64," ++ generatedData)) st)
  | Throw err =>
      setStatus ERROR
        (setError (Some (if instanceof_Error err
                         then message_of err
                         else "An unknown error occurred.")) st)
  end.

(** [handleGenerateClick] run to its end with nothing else happening in
    between but [ticks] firings of the interval. *)
Definition handleGenerateClick {H : Host} (ai : GoogleGenAI H) (ticks : nat)
    (st : State) (w : World H) : State * World H :=
  match generate_begin st with
  | None => (st, w)
  | Some (st', (base64Data, imageType, ratio)) =>
      let (outcome, w') := call_transformToIdPhoto ai base64Data imageType ratio w in
      (generate_settle outcome (snd (ticking ticks 0 st')), w')
  end.

(** [handleDownload] (lines 81-89): the [href] and [download] attributes
    of the link it clicks, if it gets that far. *)
Definition handleDownload (st : State) : option (string * string) :=
  match generatedImage st with
  | Some url => if url =? "" then None else Some (url, "id_photo.png")
  | None => None
  end.

(** The five blocks of the component's markup. *)
Inductive View : Type :=
| renderIdleState
| uploadedPreview
| renderProcessingState
| renderSuccessState
| renderErrorState.

(** The children of [<main>] (lines 158-197), in order. *)
Definition render (st : State) : list View :=
  ((if status_eqb (status st) IDLE && negb (truthy_string (originalImage st))
    then [renderIdleState] else []) ++
   (if truthy_string (originalImage st)
       && negb (status_eqb (status st) PROCESSING)
       && negb (status_eqb (status st) SUCCESS)
    then [uploadedPreview] else []) ++
   (if status_eqb (status st) PROCESSING then [renderProcessingState] else []) ++
   (if status_eqb (status st) SUCCESS then [renderSuccessState] else []) ++
   (if status_eqb (status st) ERROR then [renderErrorState] else []))%list.

Definition view_eqb (a b : View) : bool :=
  match a, b with
  | renderIdleState, renderIdleState
  | uploadedPreview, uploadedPreview
  | renderProcessingState, renderProcessingState
  | renderSuccessState, renderSuccessState
  | renderErrorState, renderErrorState => true
  | _, _ => false
  end.

Definition shown (v : View) (st : State) : bool := existsb (view_eqb v) (render st).

(** ** The component over time

    Besides the state the configuration holds the file reads that were
    started and have not called back yet, the calls in flight (each with the [messageIndex]
    of its interval closure and the way its promise will settle), the world
    of the service, and the downloads the page has triggered.  The request
    of a call leaves when the button is clicked, and the world records the
    whole call then (the request sent, the service's new state, the line the
    [catch] block logs); the outcome reaches the component when the promise
    settles. *)

Record Call : Type := mkCall {
  messageIndex : nat;
  promise : Completion string
}.

Record Config (H : Host) : Type := mkApp {
  ui : State;
  readers : list File;
  calls : list Call;
  world : World H;
  downloads : list (string * string)
}.
Arguments mkApp {H} ui readers calls world downloads.
Arguments ui {H} c.
Arguments readers {H} c.
Arguments calls {H} c.
Arguments world {H} c.
Arguments downloads {H} c.

Inductive Event : Type :=
| SelectFile (file : option File)
| Load (i : nat) (result : option string)
| LoadError (i : nat)
| Choose34
| Choose46
| ClickGenerate
| Tick (j : nat)
| Settle (j : nat)
| ClickDownload
| ClickTryAnother
| ClickTryAgain.

Fixpoint remove_nth {A : Type} (n : nat) (l : list A) : list A :=
  match l, n with
  | [], _ => []
  | _ :: rest, 0 => rest
  | x :: rest, S n' => x :: remove_nth n' rest
  end.

Fixpoint update_nth {A : Type} (n : nat) (y : A) (l : list A) : list A :=
  match l, n with
  | [], _ => []
  | _ :: rest, 0 => y :: rest
  | x :: rest, S n' => x :: update_nth n' y rest
  end.

Definition with_ui {H : Host} (st : State) (c : Config H) : Config H :=
  mkApp st (readers c) (calls c) (world c) (downloads c).

(** One event.  An event of a control is possible when the view holding the
    control is rendered, a callback when its read or call is pending. *)
Definition step {H : Host} (ai : GoogleGenAI H) (e : Event) (c : Config H)
    : option (Config H) :=
  match e with
  | SelectFile file =>
      if shown renderIdleState (ui c)
      then
        let (st, started) := handleImageUpload file (ui c) in
        Some (mkApp st
                (readers c ++ match started with Some f => [f] | None => [] end)
                (calls c) (world c) (downloads c))
      else None
  | Load i result =>
      match nth_error (readers c) i with
      | Some f =>
          Some (mkApp (reader_onload f result (ui c)) (remove_nth i (readers c))
                  (calls c) (world c) (downloads c))
      | None => None
      end
  | LoadError i =>
      match nth_error (readers c) i with
      | Some _ =>
          Some (mkApp (reader_onerror (ui c)) (remove_nth i (readers c))
                  (calls c) (world c) (downloads c))
      | None => None
      end
  | Choose34 =>
      if shown uploadedPreview (ui c)
      then Some (with_ui (setAspectRatio "3:4" (ui c)) c)
      else None
  | Choose46 =>
      if shown uploadedPreview (ui c)
      then Some (with_ui (setAspectRatio "4:6" (ui c)) c)
      else None
  | ClickGenerate =>
      if shown uploadedPreview (ui c)
      then
        match generate_begin (ui c) with
        | None => Some c
        | Some (st, (base64Data, imageType, ratio)) =>
            let (outcome, w) :=
              call_transformToIdPhoto ai base64Data imageType ratio (world c) in
            Some (mkApp st (readers c) (calls c ++ [mkCall 0 outcome]) w (downloads c))
        end
      else None
  | Tick j =>
      match nth_error (calls c) j with
      | Some call =>
          let (messageIndex', st) := interval_tick (messageIndex call) (ui c) in
          Some (mkApp st (readers c)
                  (update_nth j (mkCall messageIndex' (promise call)) (calls c))
                  (world c) (downloads c))
      | None => None
      end
  | Settle j =>
      match nth_error (calls c) j with
      | Some call =>
          Some (mkApp (generate_settle (promise call) (ui c)) (readers c)
                  (remove_nth j (calls c)) (world c) (downloads c))
      | None => None
      end
  | ClickDownload =>
      if shown renderSuccessState (ui c)
      then
        Some (mkApp (ui c) (readers c) (calls c) (world c)
                (downloads c ++
                 match handleDownload (ui c) with Some d => [d] | None => [] end))
      else None
  | ClickTryAnother =>
      if shown renderSuccessState (ui c)
      then Some (with_ui (resetState (ui c)) c)
      else None
  | ClickTryAgain =>
      if shown renderErrorState (ui c)
      then Some (with_ui (resetState (ui c)) c)
      else None
  end.

Fixpoint run {H : Host} (ai : GoogleGenAI H) (events : list Event) (c : Config H)
    : option (Config H) :=
  match events with
  | [] => Some c
  | e :: rest =>
      match step ai e c with
      | Some c' => run ai rest c'
      | None => None
      end
  end.

(** The page as first rendered, the module loaded in world [w]. *)
Definition start {H : Host} (w : World H) : Config H := mkApp initial [] [] w [].

Definition reachable {H : Host} (ai : GoogleGenAI H) (w : World H) (c : Config H) : Prop :=
  exists events, run ai events (start w) = Some c.

(** The events a user can cause, as opposed to callbacks. *)
Definition user_event (e : Event) : bool :=
  match e with
  | Load _ _ | LoadError _ | Tick _ | Settle _ => false
  | _ => true
  end.

(** ** What holds of every reachable configuration *)

Definition is_image_type (t : string) : Prop := prefix "image/" t = true.

Definition is_offered_ratio (r : string) : Prop := r = "3:4" \/ r = "4:6".

Definition is_png_data_url (url : string) : Prop :=
  exists d, url = "data:image/png;base64," ++ d /\ d <> "".

Definition is_known_error (m : string) : Prop :=
  m = "Please upload a valid image file (PNG, JPG, etc.)." \/
  m = "Failed to read the image file." \/
  prefix "Failed to generate ID photo: " m = true \/
  m = "An unknown error occurred while generating the ID photo.".

Definition settles_well (outcome : Completion string) : Prop :=
  match outcome with
  | Normal d => d <> ""
  | Throw v => exists cause, v = new_Error (normalised cause)
  end.

Record state_ok (st : State) : Prop := mkStateOk {
  ok_error_set : status st = ERROR -> error st <> None;
  ok_error_known : forall m, error st = Some m -> is_known_error m;
  ok_processing :
    status st = PROCESSING ->
    truthy_string (originalImage st) = true /\ truthy_string (originalImageType st) = true;
  ok_success : status st = SUCCESS -> generatedImage st <> None;
  ok_generated : forall url, generatedImage st = Some url -> is_png_data_url url;
  ok_type : forall t, originalImageType st = Some t -> is_image_type t;
  ok_ratio : is_offered_ratio (aspectRatio st);
  ok_message :
    exists m, processingMessage st = Some m /\ (m = "" \/ In m processingMessages);
  ok_busy_message :
    status st = PROCESSING ->
    exists m, processingMessage st = Some m /\ In m processingMessages
}.

Definition request_ok (r : GenerateContentParameters) : Prop :=
  exists d t a, r = request_from d t a /\ is_image_type t /\ is_offered_ratio a.

Definition download_ok (d : string * string) : Prop :=
  is_png_data_url (fst d) /\ snd d = "id_photo.png".

Record config_ok {H : Host} (w : World H) (c : Config H) : Prop := mkConfigOk {
  ok_ui : state_ok (ui c);
  ok_readers : Forall (fun f => is_image_type (type f)) (readers c);
  ok_calls :
    Forall (fun call => messageIndex call < List.length processingMessages /\
                        settles_well (promise call)) (calls c);
  ok_sent :
    exists requests,
      sent (world c) = (sent w ++ requests)%list /\ Forall request_ok requests;
  ok_downloads : Forall download_ok (downloads c)
}.

(** Whether [s] has a comma in it. *)
Fixpoint has_comma (s : string) : bool :=
  match s with
  | EmptyString => false
  | String c rest => Ascii.eqb c "," || has_comma rest
  end.

(** A session to run on the scripted host: one photo is picked and read,
    the larger size chosen, the photo generated while the status text
    advances twice, and the result downloaded. *)
Definition png : File := {| type := "image/png" |}.

Definition session : list Event :=
  [ SelectFile (Some png);
    Load 0 (Some "data:image/png;base64,AAAA");
    Choose46;
    ClickGenerate;
    Tick 0;
    Tick 0;
    Settle 0;
    ClickDownload ].

Definition session_world : World scripted :=
  fresh [Normal (response_of five_parts)].

Definition session_end : Config scripted :=
  Eval vm_compute in
    match run (H := scripted) None session (start session_world) with
    | Some c => c
    | None => start session_world
    end.

(** The same session stopped while the call is in flight. *)
Definition busy : list Event :=
  [ SelectFile (Some png);
    Load 0 (Some "data:image/png;base64,AAAA");
    ClickGenerate;
    Tick 0 ].

Definition busy_end : Config scripted :=
  Eval vm_compute in
    match run (H := scripted) None busy (start session_world) with
    | Some c => c
    | None => start session_world
    end.

(** A session against a service whose call throws a string. *)
Definition refused : list Event :=
  [ SelectFile (Some png);
    Load 0 (Some "data:image/png;base64,AAAA");
    ClickGenerate;
    Settle 0 ].

Definition refused_world : World scripted := fresh [Throw (Str "quota exceeded")].

Definition refused_end : Config scripted :=
  Eval vm_compute in
    match run (H := scripted) None refused (start refused_world) with
    | Some c => c
    | None => start refused_world
    end.

(** Two photos are picked in a row; the first is read and sent off, the
    read of the second fails while the call is in flight, the user
    dismisses the error, and then the call resolves. *)
Definition overtaken : list Event :=
  [ SelectFile (Some png);
    SelectFile (Some png);
    Load 0 (Some "data:image/png;base64,AAAA");
    ClickGenerate;
    LoadError 0;
    ClickTryAgain;
    Settle 0 ].

(** ** Lists of pending reads and calls *)

Lemma Forall_remove_nth {A : Type} (P : A -> Prop) (n : nat) (l : list A) :
  Forall P l -> Forall P (remove_nth n l).
Proof.
  intros F. revert n. induction F as [|x l Hx F IH]; intros [|n]; simpl; auto.
Qed.

Lemma Forall_update_nth {A : Type} (P : A -> Prop) (n : nat) (y : A) (l : list A) :
  Forall P l -> P y -> Forall P (update_nth n y l).
Proof.
  intros F Hy. revert n. induction F as [|x l Hx F IH]; intros [|n]; simpl; auto.
Qed.

Lemma Forall_nth_error {A : Type} (P : A -> Prop) (n : nat) (l : list A) (x : A) :
  Forall P l -> nth_error l n = Some x -> P x.
Proof.
  intros F Hn. rewrite Forall_forall in F. eapply F, nth_error_In, Hn.
Qed.

Lemma Forall_snoc {A : Type} (P : A -> Prop) (l : list A) (extra : list A) :
  Forall P l -> Forall P extra -> Forall P (l ++ extra).
Proof. intros. apply Forall_app. auto. Qed.

(** ** The handlers keep the state well formed *)

Lemma normalised_uniform (cause : Value) :
  prefix "Failed to generate ID photo: " (normalised cause) = true \/
  normalised cause = "An unknown error occurred while generating the ID photo.".
Proof.
  unfold normalised. destruct (instanceof_Error cause); [left | now right].
  apply (prefix_append failed_prefix).
Qed.

Lemma message_in_range (i : nat) :
  i < List.length processingMessages ->
  exists m, nth_error processingMessages i = Some m /\ In m processingMessages.
Proof.
  intros Hi. destruct (nth_error processingMessages i) as [m|] eqn:E.
  - exists m. split; [reflexivity|]. eapply nth_error_In, E.
  - apply nth_error_None in E. lia.
Qed.

Lemma next_index_in_range (i : nat) :
  (i + 1) mod List.length processingMessages < List.length processingMessages.
Proof. apply Nat.mod_upper_bound. discriminate. Qed.

Ltac state_fields :=
  constructor; simpl in *; intros;
  try discriminate; try tauto; eauto.

Lemma initial_ok : state_ok initial.
Proof.
  state_fields.
  - now left.
Qed.

Lemma resetState_ok (st : State) : state_ok st -> state_ok (resetState st).
Proof. intros [? ? ? ? ? ? ? ? ?]. state_fields. Qed.

Lemma setAspectRatio_ok (r : string) (st : State) :
  is_offered_ratio r -> state_ok st -> state_ok (setAspectRatio r st).
Proof. intros Hr [? ? ? ? ? ? ? ? ?]. state_fields. Qed.

Lemma handleImageUpload_ok (file : option File) (st : State) :
  state_ok st ->
  state_ok (fst (handleImageUpload file st)) /\
  forall f, snd (handleImageUpload file st) = Some f -> is_image_type (type f).
Proof.
  intros Hst. unfold handleImageUpload.
  destruct file as [f|]; [|split; [assumption | discriminate]].
  destruct (prefix "image/" (type f)) eqn:Htype; simpl.
  - split; [assumption|]. now intros f' [= <-].
  - split; [|discriminate].
    destruct Hst as [? ? ? ? ? ? ? ? ?]. state_fields.
    injection H as <-. unfold is_known_error. auto.
Qed.

Lemma reader_onload_ok (f : File) (result : option string) (st : State) :
  is_image_type (type f) -> state_ok st -> state_ok (reader_onload f result st).
Proof.
  intros Hf [? ? ? ? ? ? ? ? ?]. state_fields.
  now injection H as <-.
Qed.

Lemma reader_onerror_ok (st : State) : state_ok st -> state_ok (reader_onerror st).
Proof.
  intros [? ? ? ? ? ? ? ? ?]. state_fields.
  injection H as <-. unfold is_known_error. auto.
Qed.

Lemma generate_begin_guard (st st' : State) (d : option string) (t a : string) :
  generate_begin st = Some (st', (d, t, a)) ->
  exists image,
    originalImage st = Some image /\ image <> "" /\
    originalImageType st = Some t /\ t <> "" /\
    a = aspectRatio st /\
    d = nth_error (split "," image) 1 /\
    st' = setProcessingMessage (nth_error processingMessages 0)
            (setError None (setStatus PROCESSING st)).
Proof.
  unfold generate_begin.
  destruct (originalImage st) as [image|]; [|discriminate].
  destruct (originalImageType st) as [imageType|]; [|discriminate].
  destruct (String.eqb_spec image ""); simpl; [discriminate|].
  destruct (String.eqb_spec imageType ""); simpl; [discriminate|].
  intros [= <- <- <- <-]. now exists image.
Qed.

Lemma generate_begin_ok (st st' : State) (d : option string) (t a : string) :
  state_ok st ->
  generate_begin st = Some (st', (d, t, a)) ->
  state_ok st' /\ is_image_type t /\ is_offered_ratio a.
Proof.
  intros Hst Hbegin.
  destruct (generate_begin_guard _ _ _ _ _ Hbegin)
    as (image & Himage & Hne & Htype & Hte & -> & _ & ->).
  destruct Hst as [? ? ? ? ? ? ? ? ?].
  split; [|split; auto].
  state_fields.
  rewrite Himage, Htype. simpl.
  destruct (String.eqb_spec image ""), (String.eqb_spec t ""); simpl; tauto.
Qed.

Lemma interval_tick_ok (i : nat) (st : State) :
  state_ok st ->
  state_ok (snd (interval_tick i st)) /\
  fst (interval_tick i st) < List.length processingMessages.
Proof.
  intros [? ? ? ? ? ? ? ? ?]. unfold interval_tick.
  split; [|apply next_index_in_range].
  destruct (message_in_range _ (next_index_in_range i)) as (m & Hm & Hin).
  state_fields; exists m; auto.
Qed.

Lemma generate_settle_ok (outcome : Completion string) (st : State) :
  settles_well outcome -> state_ok st -> state_ok (generate_settle outcome st).
Proof.
  intros Hout [? ? ? ? ? ? ? ? ?]. destruct outcome as [d|v]; simpl in Hout.
  - state_fields. injection H as <-. now exists d.
  - destruct Hout as (cause & ->). state_fields.
    injection H as <-. unfold is_known_error.
    destruct (normalised_uniform cause); auto.
Qed.

Lemma handleDownload_ok (st : State) (d : string * string) :
  state_ok st -> handleDownload st = Some d -> download_ok d.
Proof.
  intros [? ? ? ? ? ? ? ? ?]. unfold handleDownload.
  destruct (generatedImage st) as [url|] eqn:E; [|discriminate].
  destruct (url =? ""); [discriminate|].
  intros [= <-]. split; simpl; auto.
Qed.

(** ** Every step keeps the configuration well formed *)

Lemma call_settles_well {H : Host} (ai : GoogleGenAI H)
    (d : option string) (t a : string) (w : World H) :
  settles_well (fst (call_transformToIdPhoto ai d t a w)) /\
  sent (snd (call_transformToIdPhoto ai d t a w)) = (sent w ++ [request_from d t a])%list.
Proof.
  destruct (call_transformToIdPhoto_cases ai d t a w)
    as (s & _ & [(image & -> & Hne) | (cause & ->)]); simpl; eauto.
Qed.

Lemma start_ok {H : Host} (w : World H) : config_ok w (start w).
Proof.
  constructor; simpl; auto using initial_ok.
  exists []. split; [now rewrite app_nil_r | constructor].
Qed.

Lemma step_ok {H : Host} (ai : GoogleGenAI H) (w : World H) (e : Event)
    (c c' : Config H) :
  config_ok w c -> step ai e c = Some c' -> config_ok w c'.
Proof.
  intros [Hui Hreaders Hcalls Hsent Hdownloads].
  destruct e as [file|i result|i| | | |j|j| | |]; unfold step.
  - destruct (shown renderIdleState (ui c)); [|discriminate].
    destruct (handleImageUpload_ok file (ui c) Hui) as [Hst Hstarted].
    destruct (handleImageUpload file (ui c)) as [st started]. cbn [fst snd] in *.
    intros [= <-]. constructor; simpl; auto.
    apply Forall_snoc; [assumption|].
    destruct started as [f|]; [|apply Forall_nil].
    apply Forall_cons; [|apply Forall_nil]. now apply Hstarted.
  - destruct (nth_error (readers c) i) as [f|] eqn:Hf; [|discriminate].
    intros [= <-]. constructor; simpl; auto using Forall_remove_nth.
    apply reader_onload_ok; [|assumption].
    exact (Forall_nth_error _ _ _ _ Hreaders Hf).
  - destruct (nth_error (readers c) i) as [f|] eqn:Hf; [|discriminate].
    intros [= <-]. constructor; simpl; auto using Forall_remove_nth, reader_onerror_ok.
  - destruct (shown uploadedPreview (ui c)); [|discriminate].
    intros [= <-]. constructor; simpl; auto.
    apply setAspectRatio_ok; [now left | assumption].
  - destruct (shown uploadedPreview (ui c)); [|discriminate].
    intros [= <-]. constructor; simpl; auto.
    apply setAspectRatio_ok; [now right | assumption].
  - destruct (shown uploadedPreview (ui c)); [|discriminate].
    destruct (generate_begin (ui c)) as [[st [[d t] a]]|] eqn:Hbegin.
    + destruct (generate_begin_ok _ _ _ _ _ Hui Hbegin) as (Hst & Ht & Ha).
      destruct (call_settles_well ai d t a (world c)) as [Hwell Hsends].
      destruct (call_transformToIdPhoto ai d t a (world c)) as [outcome w'].
      cbn [fst snd] in *. intros [= <-]. constructor; simpl; auto.
      * apply Forall_snoc; [assumption|].
        apply Forall_cons; [|apply Forall_nil].
        split; [simpl; lia | assumption].
      * destruct Hsent as (requests & Hw & Hok).
        exists (requests ++ [request_from d t a])%list.
        rewrite Hsends, Hw, app_assoc. split; [reflexivity|].
        apply Forall_snoc; [assumption|].
        apply Forall_cons; [|apply Forall_nil]. now exists d, t, a.
    + intros [= <-]. now constructor.
  - destruct (nth_error (calls c) j) as [call|] eqn:Hcall; [|discriminate].
    destruct (interval_tick_ok (messageIndex call) (ui c) Hui) as [Hst Hindex].
    destruct (interval_tick (messageIndex call) (ui c)) as [index st]. cbn [fst snd] in *.
    intros [= <-]. constructor; simpl; auto.
    apply Forall_update_nth; [assumption|]. simpl. split; [assumption|].
    exact (proj2 (Forall_nth_error _ _ _ _ Hcalls Hcall)).
  - destruct (nth_error (calls c) j) as [call|] eqn:Hcall; [|discriminate].
    intros [= <-]. constructor; simpl; auto using Forall_remove_nth.
    apply generate_settle_ok; [|assumption].
    exact (proj2 (Forall_nth_error _ _ _ _ Hcalls Hcall)).
  - destruct (shown renderSuccessState (ui c)); [|discriminate].
    intros [= <-]. constructor; simpl; auto.
    apply Forall_snoc; [assumption|].
    destruct (handleDownload (ui c)) as [d|] eqn:Hd; [|apply Forall_nil].
    apply Forall_cons; [|apply Forall_nil]. now apply (handleDownload_ok (ui c)).
  - destruct (shown renderSuccessState (ui c)); [|discriminate].
    intros [= <-]. constructor; simpl; auto using resetState_ok.
  - destruct (shown renderErrorState (ui c)); [|discriminate].
    intros [= <-]. constructor; simpl; auto using resetState_ok.
Qed.

Lemma run_ok {H : Host} (ai : GoogleGenAI H) (w : World H) (events : list Event)
    (c c' : Config H) :
  config_ok w c -> run ai events c = Some c' -> config_ok w c'.
Proof.
  revert c. induction events as [|e rest IH]; simpl; intros c Hc.
  - now intros [= <-].
  - destruct (step ai e c) as [c1|] eqn:Hstep; [|discriminate].
    apply IH. eapply step_ok; eassumption.
Qed.

Lemma reachable_ok {H : Host} (ai : GoogleGenAI H) (w : World H) (c : Config H) :
  reachable ai w c -> config_ok w c.
Proof. intros (events & Hrun). eapply run_ok; [apply start_ok | exact Hrun]. Qed.

(** ** Splitting a data URL *)

Lemma split_without_comma (s : string) : has_comma s = false -> split "," s = [s].
Proof.
  induction s as [|c s IH]; simpl; [reflexivity|].
  destruct (Ascii.eqb c ","); simpl; [discriminate|].
  intros Hs. now rewrite (IH Hs).
Qed.

Lemma split_at_first_comma (header rest : string) :
  has_comma header = false ->
  split "," (header ++ String "," rest) = header :: split "," rest.
Proof.
  induction header as [|c header IH]; simpl; [reflexivity|].
  destruct (Ascii.eqb c ","); simpl; [discriminate|].
  intros Hh. now rewrite (IH Hh).
Qed.

Lemma append_comma_not_empty (header rest : string) :
  header ++ String "," rest <> "".
Proof. destruct header; discriminate. Qed.



(** ** The rotating status text *)

Lemma setProcessingMessage_twice (a b : option string) (st : State) :
  setProcessingMessage a (setProcessingMessage b st) = setProcessingMessage a st.
Proof. reflexivity. Qed.

Lemma ticking_from (ticks i : nat) (st : State) :
  fst (ticking ticks i st) = match ticks with
                             | 0 => i
                             | S _ => (i + ticks) mod 7
                             end /\
  snd (ticking ticks i st) = match ticks with
                             | 0 => st
                             | S _ => setProcessingMessage
                                        (nth_error processingMessages ((i + ticks) mod 7)) st
                             end.
Proof.
  revert i st. induction ticks as [|ticks IH]; intros i st; [now split|].
  cbn [ticking]. unfold interval_tick.
  change (List.length processingMessages) with 7.
  destruct (IH ((i + 1) mod 7) (setProcessingMessage
                                  (nth_error processingMessages ((i + 1) mod 7)) st))
    as [Hfst Hsnd].
  rewrite Hfst, Hsnd. destruct ticks as [|ticks].
  - now rewrite Nat.add_1_r.
  - rewrite Nat.Div0.add_mod_idemp_l, setProcessingMessage_twice.
    now replace (i + 1 + S ticks) with (i + S (S ticks)) by lia.
Qed.

(** X5: between the click and the settling of the call the status text
    depends on the number of interval firings alone: after [ticks] firings
    it is the entry [ticks mod 7] of the seven messages, which exists, so
    the text is never [undefined] and the cycle has period seven.  The
    firings change no other state variable. *)
Theorem status_text_cycles (st st' : State) (args : option string * string * string)
    (ticks : nat)
    (Hbegin : generate_begin st = Some (st', args)) :
  fst (ticking ticks 0 st') = ticks mod 7 /\
  snd (ticking ticks 0 st')
  = setProcessingMessage (nth_error processingMessages (ticks mod 7)) st' /\
  exists m, nth_error processingMessages (ticks mod 7) = Some m /\ In m processingMessages.
Proof.
  destruct args as [[d t] a].
  destruct (generate_begin_guard _ _ _ _ _ Hbegin) as (image & _ & _ & _ & _ & _ & _ & ->).
  destruct (ticking_from ticks 0 (setProcessingMessage (nth_error processingMessages 0)
                                    (setError None (setStatus PROCESSING st))))
    as [Hfst Hsnd].
  rewrite Hfst, Hsnd. destruct ticks as [|ticks].
  - repeat split. apply (message_in_range 0). simpl. lia.
  - repeat split. apply message_in_range. apply Nat.mod_upper_bound. discriminate.
Qed.

Lemma status_text_cycles_witness :
  fst (ticking 9 0 (setProcessingMessage (nth_error processingMessages 0)
                      (setError None (setStatus PROCESSING
                         (setOriginalImageType (Some "image/png")
                            (setOriginalImage (Some "data:image/png;base64,AAAA") initial))))))
  = 9 mod 7.
Proof.
  apply (status_text_cycles
           (setOriginalImageType (Some "image/png")
              (setOriginalImage (Some "data:image/png;base64,AAAA") initial))
           _ (Some "AAAA", "image/png", "3:4") 9).
  reflexivity.
Defined.

(** ** What is on the page *)

Lemma render_table (st : State) :
  render st =
  match status st with
  | IDLE => if truthy_string (originalImage st) then [uploadedPreview] else [renderIdleState]
  | PROCESSING => [renderProcessingState]
  | SUCCESS => [renderSuccessState]
  | ERROR => if truthy_string (originalImage st)
             then [uploadedPreview; renderErrorState]
             else [renderErrorState]
  end.
Proof.
  unfold render. destruct (status st), (truthy_string (originalImage st)); reflexivity.
Qed.

(** X6: the page is never blank and never shows more than two views.  The
    upload, processing and success views are shown alone when they are
    shown; the one pair that occurs is the preview with the error view. *)
Theorem page_is_never_blank (st : State) :
  render st <> [] /\
  List.length (render st) <= 2 /\
  (shown renderIdleState st = true -> render st = [renderIdleState]) /\
  (shown renderProcessingState st = true -> render st = [renderProcessingState]) /\
  (shown renderSuccessState st = true -> render st = [renderSuccessState]) /\
  (List.length (render st) = 2 -> render st = [uploadedPreview; renderErrorState]).
Proof.
  unfold shown. rewrite render_table.
  destruct (status st), (truthy_string (originalImage st)); simpl;
    repeat split; intros; try discriminate; try reflexivity; lia.
Qed.

(** X7: while the status is [PROCESSING] only the processing view is on the
    page, and it has no control: no file can be selected, no size chosen,
    no second generation started, nothing downloaded or reset.  Only
    callbacks can move the component on. *)
Theorem no_user_event_while_processing {H : Host} (ai : GoogleGenAI H)
    (c : Config H) (e : Event)
    (Hbusy : status (ui c) = PROCESSING)
    (Huser : user_event e = true) :
  render (ui c) = [renderProcessingState] /\ step ai e c = None.
Proof.
  assert (Hrender : render (ui c) = [renderProcessingState]).
  { rewrite render_table, Hbusy. reflexivity. }
  split; [assumption|].
  destruct e; try discriminate; unfold step, shown; now rewrite Hrender.
Qed.

Lemma no_user_event_while_processing_witness :
  render (setStatus PROCESSING initial) = [renderProcessingState] /\
  step (H := scripted) None ClickGenerate
    (mkApp (setStatus PROCESSING initial) [] [] (fresh []) []) = None.
Proof.
  apply (no_user_event_while_processing (H := scripted) None
           (mkApp (setStatus PROCESSING initial) [] [] (fresh []) []) ClickGenerate);
    reflexivity.
Defined.

(** ** One generation from click to outcome *)

Lemma generate_begin_passes (st : State) (image imageType : string) :
  originalImage st = Some image -> image <> "" ->
  originalImageType st = Some imageType -> imageType <> "" ->
  generate_begin st =
  Some (setProcessingMessage (nth_error processingMessages 0)
          (setError None (setStatus PROCESSING st)),
        (nth_error (split "," image) 1, imageType, aspectRatio st)).
Proof.
  intros Himage Hne Htype Htne. unfold generate_begin. rewrite Himage, Htype.
  destruct (String.eqb_spec image ""); [contradiction|].
  now destruct (String.eqb_spec imageType ""); [contradiction|].
Qed.

Lemma generate_begin_refuses (st : State) :
  truthy_string (originalImage st) = false \/ truthy_string (originalImageType st) = false ->
  generate_begin st = None.
Proof.
  unfold generate_begin, truthy_string.
  destruct (originalImage st) as [image|], (originalImageType st) as [imageType|];
    try reflexivity.
  destruct (image =? ""), (imageType =? ""); simpl; try reflexivity.
  now intros [|].
Qed.


(** X8: with no image loaded, or an image whose media type is missing
    (either one [null] or empty), a click on the button changes nothing
    and sends nothing. *)
Theorem generation_needs_an_image {H : Host} (ai : GoogleGenAI H) (ticks : nat)
    (st : State) (w : World H)
    (Hmissing : truthy_string (originalImage st) = false \/
                truthy_string (originalImageType st) = false) :
  handleGenerateClick ai ticks st w = (st, w).
Proof.
  unfold handleGenerateClick. now rewrite (generate_begin_refuses st Hmissing).
Qed.

Lemma generation_needs_an_image_witness :
  handleGenerateClick (H := scripted) None 3
    (setOriginalImage (Some "data:image/png;base64,AAAA") initial)
    (fresh [Normal (response_of five_parts)])
  = (setOriginalImage (Some "data:image/png;base64,AAAA") initial,
     fresh [Normal (response_of five_parts)]).
Proof.
  apply (generation_needs_an_image (H := scripted) None 3
           (setOriginalImage (Some "data:image/png;base64,AAAA") initial)
           (fresh [Normal (response_of five_parts)])).
  right. reflexivity.
Defined.



Lemma call_resolves_with_first_image {H : Host} (ai : GoogleGenAI H)
    (base64ImageData mimeType ratio : string) (w : World H)
    (response : GenerateContentResponse) (s : Service H)
    (c : Candidate) (cs : list Candidate) (ct : Content)
    (pre post : list Part) (part : Part) (blob : Blob) (d : string) :
  generateContent H ai (request base64ImageData mimeType ratio) (service w)
  = (Normal response, s) ->
  candidates response = Some (c :: cs) ->
  content c = Some ct ->
  parts ct = Some (pre ++ part :: post)%list ->
  Forall (fun q => has_image q = false) pre ->
  inlineData part = Some blob -> data blob = Some d -> d <> "" ->
  call_transformToIdPhoto ai (Some base64ImageData) mimeType ratio w
  = (Normal d, after_call (request base64ImageData mimeType ratio) w s).
Proof.
  intros Hcall Hc Hct Hps Hpre Hinline Hdata Hne.
  rewrite call_transformToIdPhoto_string, transformToIdPhoto_run.
  rewrite (try_block_scan _ _ _ _ _ _ _ _ _ _ _ Hcall Hc Hct Hps).
  rewrite for_of_parts_first.
  - now rewrite (image_of_data _ _ _ Hinline Hdata).
  - now apply for_of_parts_none.
  - apply has_image_data. now exists blob, d.
Qed.

(** X10: from the loaded image to the picture on the page.  If the image
    is a data URL with payload [payload], and the service answers the
    request for that payload with a first candidate whose first
    image-carrying part holds [d], the handler ends in [SUCCESS] with the
    generated image set to the PNG data URL around [d], whatever media type
    the part declares. *)
Theorem image_goes_through {H : Host} (ai : GoogleGenAI H) (ticks : nat)
    (st : State) (w : World H) (header payload imageType : string)
    (response : GenerateContentResponse) (s : Service H)
    (c : Candidate) (cs : list Candidate) (ct : Content)
    (pre post : list Part) (part : Part) (blob : Blob) (d : string)
    (Hheader : has_comma header = false)
    (Hpayload : has_comma payload = false)
    (Himage : originalImage st = Some (header ++ "," ++ payload))
    (Htype : originalImageType st = Some imageType) (Htne : imageType <> "")
    (Hcall : generateContent H ai (request payload imageType (aspectRatio st)) (service w)
             = (Normal response, s))
    (Hcandidates : candidates response = Some (c :: cs))
    (Hcontent : content c = Some ct)
    (Hparts : parts ct = Some (pre ++ part :: post)%list)
    (Hpre : Forall (fun q => has_image q = false) pre)
    (Hinline : inlineData part = Some blob)
    (Hdata : data blob = Some d)
    (Hnonempty : d <> "") :
  handleGenerateClick ai ticks st w =
  (setStatus SUCCESS
     (setGeneratedImage (Some ("data:image/png;base64," ++ d))
        (setProcessingMessage (nth_error processingMessages (ticks mod 7))
           (setError None (setStatus PROCESSING st)))),
   after_call (request payload imageType (aspectRatio st)) w s).
Proof.
  unfold handleGenerateClick.
  rewrite (generate_begin_passes st _ imageType Himage
             (append_comma_not_empty header payload) Htype Htne).
  change (header ++ "," ++ payload) with (header ++ String "," payload).
  rewrite (split_at_first_comma _ _ Hheader), (split_without_comma _ Hpayload).
  change (nth_error [header; payload] 1) with (Some payload).
  rewrite (call_resolves_with_first_image ai payload imageType (aspectRatio st) w
             response s c cs ct pre post part blob d
             Hcall Hcandidates Hcontent Hparts Hpre Hinline Hdata Hnonempty).
  destruct (ticking_from ticks 0
              (setProcessingMessage (nth_error processingMessages 0)
                 (setError None (setStatus PROCESSING st)))) as [_ Hsnd].
  rewrite Hsnd. now destruct ticks.
Qed.

Lemma image_goes_through_witness :
  handleGenerateClick (H := scripted) None 9
    (setOriginalImageType (Some "image/jpeg")
       (setOriginalImage (Some "data:image/jpeg;base64,/9j/4AAQ") initial))
    (fresh [Normal (response_of [text_part "ok"; image_part "QUJD" "image/webp"])])
  = (setStatus SUCCESS
       (setGeneratedImage (Some "data:image/png;base64,QUJD")
          (setProcessingMessage (Some "Adding a professional white shirt...")
             (setError None (setStatus PROCESSING
                (setOriginalImageType (Some "image/jpeg")
                   (setOriginalImage (Some "data:image/jpeg;base64,/9j/4AAQ") initial)))))),
     after_call (request "/9j/4AAQ" "image/jpeg" "3:4") (fresh []) []).
Proof.
  apply (image_goes_through (H := scripted) None 9
           (setOriginalImageType (Some "image/jpeg")
              (setOriginalImage (Some "data:image/jpeg;base64,/9j/4AAQ") initial))
           (fresh [Normal (response_of [text_part "ok"; image_part "QUJD" "image/webp"])])
           "data:image/jpeg;base64" "/9j/4AAQ" "image/jpeg"
           (response_of [text_part "ok"; image_part "QUJD" "image/webp"]) []
           (candidate_of [text_part "ok"; image_part "QUJD" "image/webp"]) []
           (content_of [text_part "ok"; image_part "QUJD" "image/webp"])
           [text_part "ok"] [] (image_part "QUJD" "image/webp")
           {| data := Some "QUJD"; mimeType := Some "image/webp" |} "QUJD");
    try reflexivity;
    first [discriminate | apply Forall_cons; [reflexivity | apply Forall_nil]].
Defined.

(** ** What every reachable configuration satisfies *)

Lemma shown_processing (st : State) :
  shown renderProcessingState st = true -> status st = PROCESSING.
Proof.
  unfold shown. rewrite render_table.
  now destruct (status st), (truthy_string (originalImage st)).
Qed.

Lemma shown_success (st : State) :
  shown renderSuccessState st = true -> status st = SUCCESS.
Proof.
  unfold shown. rewrite render_table.
  now destruct (status st), (truthy_string (originalImage st)).
Qed.

Lemma shown_error (st : State) :
  shown renderErrorState st = true -> status st = ERROR.
Proof.
  unfold shown. rewrite render_table.
  now destruct (status st), (truthy_string (originalImage st)).
Qed.

Lemma truthy_string_some (o : option string) :
  truthy_string o = true -> exists s, o = Some s /\ s <> "".
Proof.
  destruct o as [s|]; simpl; [|discriminate].
  destruct (String.eqb_spec s ""); [discriminate|]. eauto.
Qed.

Lemma known_error_is_not_the_fallback (m : string) :
  is_known_error m -> m <> "An unknown error occurred.".
Proof.
  intros [-> | [-> | [Hprefix | ->]]]; try discriminate.
  intros ->. discriminate.
Qed.

(** X11: in every configuration the component can reach, the views find
    the following of the state they read.  The preview has a non-empty
    original image and one of the two offered ratios; the processing view
    has a non-empty original image and one of the seven status texts; the
    success view has a generated image, a PNG data URL around a non-empty
    payload; the error view has a message.  The success view also reads
    the original image, and of that nothing is said here. *)
Theorem views_have_their_data {H : Host} (ai : GoogleGenAI H) (w : World H)
    (c : Config H) (Hreach : reachable ai w c) :
  (shown uploadedPreview (ui c) = true ->
   (exists image, originalImage (ui c) = Some image /\ image <> "") /\
   (aspectRatio (ui c) = "3:4" \/ aspectRatio (ui c) = "4:6")) /\
  (shown renderProcessingState (ui c) = true ->
   exists image m,
     originalImage (ui c) = Some image /\ image <> "" /\
     processingMessage (ui c) = Some m /\ In m processingMessages) /\
  (shown renderSuccessState (ui c) = true ->
   exists d, generatedImage (ui c) = Some ("data:image/png;base64," ++ d) /\ d <> "") /\
  (shown renderErrorState (ui c) = true ->
   exists m, error (ui c) = Some m).
Proof.
  destruct (reachable_ok ai w c Hreach) as [[? ? ? ? ? ? ? ? ?] _ _ _ _].
  split; [|split; [|split]].
  - intros Hshown. split; [|assumption].
    apply truthy_string_some. revert Hshown. unfold shown. rewrite render_table.
    now destruct (status (ui c)), (truthy_string (originalImage (ui c))).
  - intros Hshown. apply shown_processing in Hshown.
    destruct (ok_processing0 Hshown) as [Himage _].
    destruct (truthy_string_some _ Himage) as (image & Hi & Hne).
    destruct (ok_busy_message0 Hshown) as (m & Hm & Hin).
    now exists image, m.
  - intros Hshown. apply shown_success in Hshown.
    destruct (generatedImage (ui c)) as [url|] eqn:Hurl;
      [|now destruct (ok_success0 Hshown)].
    destruct (ok_generated0 url eq_refl) as (d & -> & Hd). now exists d.
  - intros Hshown. apply shown_error in Hshown.
    destruct (error (ui c)) as [m|]; [now exists m | now destruct (ok_error_set0 Hshown)].
Qed.

Lemma views_have_their_data_witness :
  reachable (H := scripted) None session_world busy_end /\
  shown renderProcessingState (ui busy_end) = true /\
  exists image m,
    originalImage (ui busy_end) = Some image /\ image <> "" /\
    processingMessage (ui busy_end) = Some m /\ In m processingMessages.
Proof.
  assert (Hreach : reachable (H := scripted) None session_world busy_end).
  { exists busy. vm_compute. reflexivity. }
  split; [exact Hreach|]. split; [vm_compute; reflexivity|].
  apply (proj1 (proj2 (views_have_their_data (H := scripted) None session_world
                         busy_end Hreach))).
  vm_compute. reflexivity.
Defined.

(** X12: every request the component has the service send carries a media
    type that starts with [image/] and one of the two ratios the page
    offers; nothing else reaches the list of sent requests. *)
Theorem requests_are_well_formed {H : Host} (ai : GoogleGenAI H) (w : World H)
    (c : Config H) (Hreach : reachable ai w c) :
  exists requests,
    sent (world c) = (sent w ++ requests)%list /\
    Forall (fun r => exists d t a,
                       r = request_from d t a /\
                       prefix "image/" t = true /\
                       (a = "3:4" \/ a = "4:6")) requests.
Proof. exact (ok_sent w c (reachable_ok ai w c Hreach)). Qed.

Lemma requests_are_well_formed_witness :
  reachable (H := scripted) None session_world session_end /\
  sent (world session_end) = [request "AAAA" "image/png" "4:6"] /\
  exists requests,
    sent (world session_end) = (sent session_world ++ requests)%list /\
    Forall (fun r => exists d t a,
                       r = request_from d t a /\
                       prefix "image/" t = true /\
                       (a = "3:4" \/ a = "4:6")) requests.
Proof.
  assert (Hreach : reachable (H := scripted) None session_world session_end).
  { exists session. vm_compute. reflexivity. }
  split; [exact Hreach|]. split; [vm_compute; reflexivity|].
  exact (requests_are_well_formed (H := scripted) None session_world session_end Hreach).
Defined.

(** X13: every download the page triggers saves, under the name
    [id_photo.png], a PNG data URL around a non-empty payload. *)
Theorem downloads_are_png_data_urls {H : Host} (ai : GoogleGenAI H) (w : World H)
    (c : Config H) (Hreach : reachable ai w c) :
  Forall (fun d => (exists payload,
                      fst d = "data:image/png;base64," ++ payload /\ payload <> "") /\
                   snd d = "id_photo.png") (downloads c).
Proof. exact (ok_downloads w c (reachable_ok ai w c Hreach)). Qed.

Lemma downloads_are_png_data_urls_witness :
  reachable (H := scripted) None session_world session_end /\
  downloads session_end = [("data:image/png;base64,QUJD", "id_photo.png")] /\
  Forall (fun d => (exists payload,
                      fst d = "data:image/png;base64," ++ payload /\ payload <> "") /\
                   snd d = "id_photo.png") (downloads session_end).
Proof.
  assert (Hreach : reachable (H := scripted) None session_world session_end).
  { exists session. vm_compute. reflexivity. }
  split; [exact Hreach|]. split; [vm_compute; reflexivity|].
  exact (downloads_are_png_data_urls (H := scripted) None session_world session_end Hreach).
Defined.

(** X14: the error text of a reachable configuration is one of four: the
    two fixed texts of the upload handler and the file reader, a text that
    starts with the service's prefix, or the service's generic text.  The
    fallback text of the component's own [catch] clause never appears: the
    service only ever rejects with an [Error] instance. *)
Theorem error_texts_are_known {H : Host} (ai : GoogleGenAI H) (w : World H)
    (c : Config H) (m : string)
    (Hreach : reachable ai w c)
    (Herror : error (ui c) = Some m) :
  (m = "Please upload a valid image file (PNG, JPG, etc.)." \/
   m = "Failed to read the image file." \/
   prefix "Failed to generate ID photo: " m = true \/
   m = "An unknown error occurred while generating the ID photo.") /\
  m <> "An unknown error occurred.".
Proof.
  pose proof (ok_error_known _ (ok_ui w c (reachable_ok ai w c Hreach)) m Herror) as Hknown.
  split; [exact Hknown | now apply known_error_is_not_the_fallback].
Qed.

Lemma error_texts_are_known_witness :
  reachable (H := scripted) None refused_world refused_end /\
  error (ui refused_end) = Some "An unknown error occurred while generating the ID photo." /\
  "An unknown error occurred while generating the ID photo." <> "An unknown error occurred.".
Proof.
  assert (Hreach : reachable (H := scripted) None refused_world refused_end).
  { exists refused. vm_compute. reflexivity. }
  assert (Herror : error (ui refused_end)
                   = Some "An unknown error occurred while generating the ID photo.").
  { vm_compute. reflexivity. }
  split; [exact Hreach|]. split; [exact Herror|].
  exact (proj2 (error_texts_are_known (H := scripted) None refused_world refused_end _
                  Hreach Herror)).
Defined.

(** ** A call overtaken by other events *)

(** X15: the success view can come up with no original image to show.  On
    any host whose service answers the request for the first photo with an
    image, the session [overtaken] (a second photo picked before the first
    is read, its read failing while the call is in flight, the error
    dismissed, the call resolving last) ends with the success view on the
    page, the generated image set, and [originalImage] back at [null]. *)
Theorem success_view_without_original {H : Host} (ai : GoogleGenAI H) (w : World H)
    (response : GenerateContentResponse) (s : Service H)
    (c0 : Candidate) (cs : list Candidate) (ct : Content)
    (pre post : list Part) (part : Part) (blob : Blob) (d : string)
    (Hcall : generateContent H ai (request "AAAA" "image/png" "3:4") (service w)
             = (Normal response, s))
    (Hcandidates : candidates response = Some (c0 :: cs))
    (Hcontent : content c0 = Some ct)
    (Hparts : parts ct = Some (pre ++ part :: post)%list)
    (Hpre : Forall (fun q => has_image q = false) pre)
    (Hinline : inlineData part = Some blob)
    (Hdata : data blob = Some d)
    (Hnonempty : d <> "") :
  exists c,
    run ai overtaken (start w) = Some c /\
    render (ui c) = [renderSuccessState] /\
    originalImage (ui c) = None /\
    generatedImage (ui c) = Some ("data:image/png;base64," ++ d) /\
    calls c = [] /\ readers c = [].
Proof.
  eexists. split.
  - unfold overtaken. cbn -[call_transformToIdPhoto].
    rewrite (call_resolves_with_first_image ai "AAAA" "image/png" "3:4" w
               response s c0 cs ct pre post part blob d
               Hcall Hcandidates Hcontent Hparts Hpre Hinline Hdata Hnonempty).
    cbn -[after_call request]. reflexivity.
  - cbn -[after_call request]. repeat split.
Qed.

Lemma success_view_without_original_witness :
  exists c,
    run (H := scripted) None overtaken (start session_world) = Some c /\
    render (ui c) = [renderSuccessState] /\
    originalImage (ui c) = None /\
    generatedImage (ui c) = Some ("data:image/png;base64," ++ "QUJD") /\
    calls c = [] /\ readers c = [].
Proof.
  apply (success_view_without_original (H := scripted) None session_world
           (response_of five_parts) [] (candidate_of five_parts) [] (content_of five_parts)
           [text_part "ok"; text_part "here it is"]
           [text_part "bye"; image_part "REVG" "image/png"]
           (image_part "QUJD" "image/png")
           {| data := Some "QUJD"; mimeType := Some "image/png" |} "QUJD");
    try reflexivity;
    first [discriminate | repeat (apply Forall_cons; [reflexivity|]); apply Forall_nil].
Defined.

(** ** Resetting and loading *)

(** X16: [resetState] always leads to the upload view alone and keeps the
    chosen ratio.  A finished read leads away from whatever was on the page
    (error, success, a generated image): to the preview alone when the read
    produced a non-empty string, and back to the upload view when it
    produced none; the media type stored is the file's. *)
Theorem reset_and_load_views (st : State) (f : File) (result : option string) :
  render (resetState st) = [renderIdleState] /\
  aspectRatio (resetState st) = aspectRatio st /\
  render (reader_onload f result st)
  = (if truthy_string result then [uploadedPreview] else [renderIdleState]) /\
  generatedImage (reader_onload f result st) = None /\
  error (reader_onload f result st) = None /\
  originalImageType (reader_onload f result st) = Some (type f) /\
  aspectRatio (reader_onload f result st) = aspectRatio st.
Proof.
  repeat split.
  rewrite render_table. simpl. now destruct (truthy_string result).
Qed.

End App.
